(** * Kernel execution pipeline of [src/services/codeExecutionService.ts]

    A shallow embedding of [CodeExecutionService]: the URL helpers, the
    execute-request builder, the three kernel lifecycle calls and the
    event handlers that [executeNotebookBlocks] installs on its WebSocket.

    The handlers are closures over mutable locals ([results],
    [currentBlockIndex], [messageStatus]), over the caller's [codeBlocks]
    array, over the promise's [resolve]/[reject] and over the socket [ws].
    They are embedded as computations in a state-and-exception monad over a
    record that holds exactly those things. *)

From stdpp Require Import gmap strings list pretty.

Local Open Scope string_scope.

(** ** JavaScript strings *)

(** The line feed written ['\n'] in the source. *)
Definition nl : string := String (Ascii.ascii_of_nat 10) EmptyString.

(** The double quote that delimits the [src] attribute of the image tag. *)
Definition dq : string := String (Ascii.ascii_of_nat 34) EmptyString.

(** Truthiness of a string value: only the empty string is falsy. *)
Definition truthy (s : string) : bool := negb (String.eqb s "").

(** Truthiness of a possibly undefined string property. *)
Definition truthy_opt (o : option string) : bool :=
  match o with Some s => truthy s | None => false end.

(** [Array.prototype.join] on an array of strings. *)
Definition join (sep : string) (xs : list string) : string := String.concat sep xs.

(** [String.prototype.startsWith]. *)
Definition startsWith (s p : string) : bool := String.prefix p s.

(** [String.prototype.replace] with a string pattern: the first occurrence
    only; the subject is returned as it is when the pattern does not occur. *)
Fixpoint replace (s pat by_ : string) : string :=
  if String.prefix pat s then by_ +:+ String.substring (String.length pat) (String.length s - String.length pat) s
  else match s with
       | EmptyString => EmptyString
       | String c rest => String c (replace rest pat by_)
       end.

(** Interpolation [${x}] of a possibly undefined string property. *)
Definition interpolate (o : option string) : string := default "undefined" o.

(** ** Types of [@/features/jupyter/types/jupyter] and
       [@/features/editor/types/codeExecution]

    The service imports these types from other modules of the
    application; the records below carry the properties it reads and
    writes. [port] is interpolated into the URL as text. [hasError] is
    optional: [executeCode] builds a [CodeBlock] literal without it. *)

Record JupyterServer := {
  ip : string;
  port : string;
  token : option string
}.

Record CodeBlock := {
  block_id : string;
  block_notebookId : string;
  block_code : string;
  block_hasError : option bool
}.

Record ExecutionResult := {
  result_id : string;
  result_hasError : option bool;
  result_output : string
}.

Record MessageStatus := {
  done : bool;
  output : string
}.

(** The envelope built by [createExecuteRequestMessage]. [parent_header],
    [metadata] and [user_expressions] are the empty object literal. *)
Record Header := {
  msg_id : string;
  username : string;
  session : string;
  msg_type : string;
  version : string
}.

Record ExecuteContent := {
  content_code : string;
  silent : bool;
  store_history : bool;
  allow_stdin : bool
}.

Record JupyterMessage := {
  header : Header;
  content : ExecuteContent;
  channel : string
}.

(** ** Inbound payloads

    [ws.onmessage] receives text and runs [JSON.parse] on it. The value
    that comes back is untyped; the handler reads the properties below and
    no others. [None] is a property that is absent; a property that is
    present holds a value of the type the Jupyter messaging protocol gives
    it. *)

Record InData := {
  text_plain : option string;
  text_html : option string;
  image_png : option string
}.

Record InContent := {
  text : option string;
  data : option InData;
  ename : option string;
  evalue : option string;
  traceback : option (list string);
  execution_state : option string
}.

Record InHeader := { in_msg_type : option string }.

Record InParent := { in_msg_id : option string }.

Record InMessage := {
  in_header : option InHeader;
  in_parent_header : option InParent;
  in_content : option InContent
}.

(** [Malformed]: text that is not JSON. [JsonNull]: the JSON text [null].
    [Json m]: any other JSON value, seen through the properties read (a
    number or a string has none of them). *)
Inductive payload :=
  | Malformed
  | JsonNull
  | Json (m : InMessage).

(** ** Messages of a kernel *)

(** Inbound messages as a kernel builds them. *)
Definition inbound (msgType parentMsgId : string) (c : InContent) : InMessage :=
  {| in_header := Some {| in_msg_type := Some msgType |};
     in_parent_header := Some {| in_msg_id := Some parentMsgId |};
     in_content := Some c |}.

Definition stream_content (t : string) : InContent :=
  {| text := Some t; data := None; ename := None; evalue := None;
     traceback := None; execution_state := None |}.

Definition plain_content (t : string) : InContent :=
  {| text := None;
     data := Some {| text_plain := Some t; text_html := None; image_png := None |};
     ename := None; evalue := None; traceback := None; execution_state := None |}.

Definition error_content (name value : string) (tb : list string) : InContent :=
  {| text := None; data := None; ename := Some name; evalue := Some value;
     traceback := Some tb; execution_state := None |}.

Definition idle_content : InContent :=
  {| text := None; data := None; ename := None; evalue := None;
     traceback := None; execution_state := Some "idle" |}.

(** A [status] message reporting [idle] for the request [parentMsgId]. *)
Definition idle_status (parentMsgId : string) : InMessage :=
  inbound "status" parentMsgId idle_content.

(** ** The promise, the socket and the callback *)

Inductive promise_state :=
  | Pending
  | Resolved (rs : list ExecutionResult)
  | Rejected (message : string).

(** Calls made on the transport, in program order. *)
Inductive ws_call :=
  | WsNew (url : string)
  | WsSend (m : JupyterMessage)
  | WsClose.

(** The signals of the transport after it has opened. *)
Inductive event :=
  | MessageEvent (event_data : payload)
  | ErrorEvent
  | CloseEvent.

(** Values that are thrown, or that reject a promise. [Error message] is
    [new Error(message)]; [NonError repr] is a value that is not an instance
    of [Error], with [repr] its [String(...)] conversion. *)
Inductive exn :=
  | Error (message : string)
  | SyntaxError
  | TypeError
  | NonError (repr : string).

Definition instanceof_Error (e : exn) : bool :=
  match e with
  | NonError _ => false
  | _ => true
  end.

Inductive completion (A : Type) :=
  | Normal (a : A)
  | Throw (e : exn).
Arguments Normal {A} a.
Arguments Throw {A} e.

#[global] Instance completion_ret : MRet completion := @Normal.
#[global] Instance completion_bind : MBind completion :=
  λ A B k m, match m with Normal a => k a | Throw e => Throw e end.

(** [try { body } catch (e) { handler e }]. *)
Definition try_catch {A} (body : completion A) (handler : exn → completion A) : completion A :=
  match body with
  | Normal a => Normal a
  | Throw e => handler e
  end.

(** The store the handlers close over. [issued] counts the calls of
    [createExecuteRequestMessage]; [ws] and [notified] record the calls
    made on the socket and on [onOutput]. *)
Record state := {
  codeBlocks : list CodeBlock;
  results : gmap string string;
  currentBlockIndex : nat;
  messageStatus : gmap string MessageStatus;
  promise : promise_state;
  ws : list ws_call;
  notified : list (string * string);
  issued : nat
}.

Definition with_codeBlocks (f : list CodeBlock → list CodeBlock) (s : state) : state :=
  {| codeBlocks := f (codeBlocks s); results := results s;
     currentBlockIndex := currentBlockIndex s; messageStatus := messageStatus s;
     promise := promise s; ws := ws s; notified := notified s; issued := issued s |}.

Definition with_results (f : gmap string string → gmap string string) (s : state) : state :=
  {| codeBlocks := codeBlocks s; results := f (results s);
     currentBlockIndex := currentBlockIndex s; messageStatus := messageStatus s;
     promise := promise s; ws := ws s; notified := notified s; issued := issued s |}.

Definition with_currentBlockIndex (f : nat → nat) (s : state) : state :=
  {| codeBlocks := codeBlocks s; results := results s;
     currentBlockIndex := f (currentBlockIndex s); messageStatus := messageStatus s;
     promise := promise s; ws := ws s; notified := notified s; issued := issued s |}.

Definition with_messageStatus
    (f : gmap string MessageStatus → gmap string MessageStatus) (s : state) : state :=
  {| codeBlocks := codeBlocks s; results := results s;
     currentBlockIndex := currentBlockIndex s; messageStatus := f (messageStatus s);
     promise := promise s; ws := ws s; notified := notified s; issued := issued s |}.

Definition with_promise (f : promise_state → promise_state) (s : state) : state :=
  {| codeBlocks := codeBlocks s; results := results s;
     currentBlockIndex := currentBlockIndex s; messageStatus := messageStatus s;
     promise := f (promise s); ws := ws s; notified := notified s; issued := issued s |}.

Definition with_ws (f : list ws_call → list ws_call) (s : state) : state :=
  {| codeBlocks := codeBlocks s; results := results s;
     currentBlockIndex := currentBlockIndex s; messageStatus := messageStatus s;
     promise := promise s; ws := f (ws s); notified := notified s; issued := issued s |}.

Definition with_notified (f : list (string * string) → list (string * string)) (s : state) : state :=
  {| codeBlocks := codeBlocks s; results := results s;
     currentBlockIndex := currentBlockIndex s; messageStatus := messageStatus s;
     promise := promise s; ws := ws s; notified := f (notified s); issued := issued s |}.

Definition with_issued (f : nat → nat) (s : state) : state :=
  {| codeBlocks := codeBlocks s; results := results s;
     currentBlockIndex := currentBlockIndex s; messageStatus := messageStatus s;
     promise := promise s; ws := ws s; notified := notified s; issued := f (issued s) |}.

(** ** The handler monad *)

Definition Handler (A : Type) : Type := state → state * completion A.

Definition ret {A} (a : A) : Handler A := λ s, (s, Normal a).

Definition throw {A} (e : exn) : Handler A := λ s, (s, Throw e).

Definition bind {A B} (k : A → Handler B) (m : Handler A) : Handler B :=
  λ s, match m s with
       | (s', Normal a) => k a s'
       | (s', Throw e) => (s', Throw e)
       end.

#[global] Instance Handler_ret : MRet Handler := @ret.
#[global] Instance Handler_bind : MBind Handler := @bind.

Definition gets {A} (f : state → A) : Handler A := λ s, (s, Normal (f s)).

Definition modify (f : state → state) : Handler unit := λ s, (f s, Normal tt).

(** Reading a property of [undefined] or [null] throws a [TypeError]. *)
Definition deref {A} (o : option A) : Handler A :=
  match o with
  | Some a => ret a
  | None => throw TypeError
  end.

(** ** URL helpers *)

Definition getBaseUrl (server : JupyterServer) : string :=
  let protocol := if startsWith (ip server) "http" then "" else "http://" in
  protocol +:+ ip server +:+ ":" +:+ port server.

Definition getUrlWithToken (serverConfig : JupyterServer) (endpoint : string) : string :=
  let url := getBaseUrl serverConfig +:+ endpoint in
  if truthy_opt (token serverConfig)
  then url +:+ "?token=" +:+ interpolate (token serverConfig)
  else url.

Definition getWebSocketUrl (serverConfig : JupyterServer) (kernelId : string) : string :=
  let baseUrl :=
    replace (replace (getBaseUrl serverConfig) "http://" "ws://") "https://" "wss://" in
  let url := baseUrl +:+ "/api/kernels/" +:+ kernelId +:+ "/channels" in
  if truthy_opt (token serverConfig)
  then url +:+ "?token=" +:+ interpolate (token serverConfig)
  else url.

(** ** Kernel lifecycle calls

    [fetch] is the environment. A response carries its status line, its
    body text, and the value [JSON.parse] gives for that text ([None] when
    the text is not JSON). An object is the list of its properties, each
    key once. The [logger] calls have no effect on the result and are left
    out. *)

#[warnings="-register-all"]
Inductive json :=
  | JNull
  | JPrimitive
  | JString (s : string)
  | JArray (items : list json)
  | JObject (fields : list (string * json)).

Record Request := {
  req_url : string;
  req_method : string;
  req_name : option string
}.

Record Response := {
  resp_status : nat;
  resp_statusText : string;
  resp_text : string;
  resp_json : option json
}.

(** [response.ok]. *)
Definition resp_ok (r : Response) : bool :=
  (200 <=? resp_status r)%nat && (resp_status r <=? 299)%nat.

(** [JSON.parse(responseText)] and [response.json()]. *)
Definition parse_body (r : Response) : completion json :=
  match resp_json r with
  | Some v => Normal v
  | None => Throw SyntaxError
  end.

(** The read [data.id]. *)
Definition get_id (data_ : json) : completion (option json) :=
  match data_ with
  | JNull => Throw TypeError
  | JObject fields => Normal (snd <$> List.find (λ kv, String.eqb (fst kv) "id") fields)
  | _ => Normal None
  end.

Section KernelLifecycle.

Variable fetch : Request → completion Response.

Definition createKernel (serverConfig : JupyterServer) (kernelName : string)
    : completion (option json) :=
  try_catch
    (let url := getUrlWithToken serverConfig "/api/kernels" in
     response ← fetch {| req_url := url; req_method := "POST"; req_name := Some kernelName |};
     let responseText := resp_text response in
     if negb (resp_ok response) then
       Throw (Error ("Failed to create kernel: " +:+ pretty (resp_status response) +:+ " "
                       +:+ resp_statusText response
                       +:+ (if truthy responseText then " - " +:+ responseText else "")))
     else
       try_catch
         (data_ ← parse_body response;
          get_id data_)
         (λ parseError, Throw (Error "Invalid response format from Jupyter server")))
    (λ error,
       if instanceof_Error error then Throw error
       else Throw (Error ("Failed to create kernel: " +:+
                            match error with NonError repr => repr | _ => "" end))).

Definition deleteKernel (serverConfig : JupyterServer) (kernelId : string)
    : completion unit :=
  response ← fetch {| req_url := getUrlWithToken serverConfig ("/api/kernels/" +:+ kernelId);
                      req_method := "DELETE"; req_name := None |};
  if negb (resp_ok response) then
    Throw (Error ("Failed to delete kernel: " +:+ resp_statusText response))
  else mret tt.

Definition listKernels (serverConfig : JupyterServer) : completion json :=
  response ← fetch {| req_url := getUrlWithToken serverConfig "/api/kernels";
                      req_method := "GET"; req_name := None |};
  if negb (resp_ok response) then
    Throw (Error ("Failed to list kernels: " +:+ resp_statusText response))
  else parse_body response.

End KernelLifecycle.

(** ** Sample inputs

    A server, two cells, the ids a run with [sample_stamp] generates, and
    two HTTP responses. *)

Definition sample_stamp (n : nat) : string := pretty n.

Definition sample_server : JupyterServer :=
  {| ip := "localhost"; port := "8888"; token := None |}.

Definition cell_a : CodeBlock :=
  {| block_id := "cell-a"; block_notebookId := "nota"; block_code := "print(1)";
     block_hasError := Some false |}.

Definition cell_b : CodeBlock :=
  {| block_id := "cell-b"; block_notebookId := "nota"; block_code := "print(2)";
     block_hasError := Some true |}.

Definition value_error : InContent :=
  error_content "ValueError" "bad" ["line1"; "line2"].

Definition response_500 : Response :=
  {| resp_status := 500; resp_statusText := "Internal Server Error";
     resp_text := "kernel busy"; resp_json := None |}.

Definition response_200_not_json : Response :=
  {| resp_status := 200; resp_statusText := "OK";
     resp_text := "<html>"; resp_json := None |}.

(** [String.prototype.includes]. *)
Definition includes (s sub : string) : bool :=
  if String.index 0 sub s is Some _ then true else false.

Definition secure_server : JupyterServer :=
  {| ip := "https://jupyter.example.org"; port := "443"; token := Some "s3cret" |}.



(** A [fetch] that rejects with a value that is not an [Error]. *)
Definition offline_fetch : Request → completion Response :=
  λ _, Throw (NonError "offline").

(** ** [executeNotebookBlocks] *)

(** The object literal that [createExecuteRequestMessage] returns, for the
    message id it has generated. *)
Definition execute_request (msgId code : string) : JupyterMessage :=
  {| header := {| msg_id := msgId; username := "bashbook"; session := msgId;
                  msg_type := "execute_request"; version := "5.0" |};
     content := {| content_code := code; silent := false;
                   store_history := true; allow_stdin := false |};
     channel := "shell" |}.

Section ExecuteNotebookBlocks.

(** [stamp n] is the text [`${Date.now()}-${Math.random()}`] that the
    [n]-th call of [createExecuteRequestMessage] obtains from the clock and
    the random generator. *)
Variable stamp : nat → string.

Variable serverConfig : JupyterServer.
Variable kernelId : string.

(** Whether the optional [onOutput] callback was supplied. Its calls are
    recorded in [notified]; the callback itself belongs to the caller. *)
Variable onOutput : bool.

Definition createExecuteRequestMessage (code : string) : Handler JupyterMessage :=
  n ← gets issued;
  modify (with_issued S);;
  let msgId := "msg-" +:+ stamp n in
  mret (execute_request msgId code).

Definition ws_send (m : JupyterMessage) : Handler unit :=
  modify (with_ws (λ calls, (calls ++ [WsSend m])%list)).

Definition ws_close : Handler unit :=
  modify (with_ws (λ calls, (calls ++ [WsClose])%list)).

(** A promise is settled once; later calls of [resolve] and [reject] have
    no effect. *)
Definition settle (outcome p : promise_state) : promise_state :=
  match p with
  | Pending => outcome
  | _ => p
  end.

Definition resolve (rs : list ExecutionResult) : Handler unit :=
  modify (with_promise (settle (Resolved rs))).

Definition reject (message : string) : Handler unit :=
  modify (with_promise (settle (Rejected message))).

(** [codeBlocks[currentBlockIndex]], about to have a property read or
    written. *)
Definition currentBlock : Handler CodeBlock :=
  blocks ← gets codeBlocks;
  i ← gets currentBlockIndex;
  deref (blocks !! i).

(** [messageStatus.set(key, status)]. *)
Definition set_status (key : string) (status : MessageStatus) : state → state :=
  with_messageStatus <[key := status]>.

(** [status] is the object that [messageStatus] holds under [parentMsgId]:
    an assignment to one of its properties is a write to that entry. *)
Definition write_status (parentMsgId : string) (status : MessageStatus) : Handler unit :=
  modify (set_status parentMsgId status).

(** [onOutput(blockId, output)]. *)
Definition call_onOutput (blockId output_ : string) : state → state :=
  with_notified (λ calls, (calls ++ [(blockId, output_)])%list).

Definition set_hasError (b : CodeBlock) : CodeBlock :=
  {| block_id := block_id b; block_notebookId := block_notebookId b;
     block_code := block_code b; block_hasError := Some true |}.

(** The value passed to [resolve]. *)
Definition collect (blocks : list CodeBlock) (res : gmap string string) : list ExecutionResult :=
  map (λ block, {| result_id := block_id block;
                   result_hasError := block_hasError block;
                   result_output := default "" (res !! block_id block) |}) blocks.

(** The fragment built from [content.data] by the [execute_result] and
    [display_data] cases. *)
Definition data_fragment (d : InData) : string :=
  let newOutput := "" in
  let newOutput :=
    if truthy_opt (text_plain d) then newOutput +:+ interpolate (text_plain d) +:+ nl
    else newOutput in
  let newOutput :=
    if truthy_opt (text_html d) then newOutput +:+ interpolate (text_html d) +:+ nl
    else newOutput in
  let newOutput :=
    if truthy_opt (image_png d)
    then newOutput +:+ "<img src=" +:+ dq +:+ "data:image/png;base64,"
                   +:+ interpolate (image_png d) +:+ dq +:+ " />" +:+ nl
    else newOutput in
  newOutput.

(** The fragment built by the [error] case. *)
Definition error_fragment (c : InContent) (tb : list string) : string :=
  "Error: " +:+ interpolate (ename c) +:+ nl +:+ interpolate (evalue c) +:+ nl +:+ join nl tb.

Definition append_output (status : MessageStatus) (newOutput : string) : MessageStatus :=
  {| done := done status; output := output status +:+ newOutput |}.

Definition mark_done (status : MessageStatus) : MessageStatus :=
  {| done := true; output := output status |}.

Inductive msg_kind := KStream | KResult | KError | KStatus | KOther.

(** The [switch (msgType)]: strict equality with the case labels. *)
Definition kind_of (msgType : option string) : msg_kind :=
  match msgType with
  | None => KOther
  | Some t =>
      if String.eqb t "stream" then KStream
      else if String.eqb t "execute_result" then KResult
      else if String.eqb t "display_data" then KResult
      else if String.eqb t "error" then KError
      else if String.eqb t "status" then KStatus
      else KOther
  end.

(** The body of the [switch]. It returns the local [status] and
    [newOutput] as they stand after the [break]. *)
Definition dispatch (msgType : option string) (content : option InContent)
    (parentMsgId : string) (status : MessageStatus) : Handler (MessageStatus * string) :=
  match kind_of msgType with
  | KStream =>
      c ← deref content;
      let newOutput := if truthy_opt (text c) then interpolate (text c) else "" in
      let status := append_output status newOutput in
      write_status parentMsgId status;;
      mret (status, newOutput)
  | KResult =>
      c ← deref content;
      d ← deref (data c);
      let newOutput := data_fragment d in
      let status := append_output status newOutput in
      write_status parentMsgId status;;
      mret (status, newOutput)
  | KError =>
      c ← deref content;
      tb ← deref (traceback c);
      let newOutput := error_fragment c tb in
      let status := append_output status newOutput in
      write_status parentMsgId status;;
      _ ← currentBlock;
      i ← gets currentBlockIndex;
      modify (with_codeBlocks (alter set_hasError i));;
      mret (status, newOutput)
  | KStatus =>
      c ← deref content;
      if bool_decide (execution_state c = Some "idle") && negb (done status) then
        let status := mark_done status in
        write_status parentMsgId status;;
        block ← currentBlock;
        modify (with_results <[block_id block := output status]>);;
        modify (with_currentBlockIndex S);;
        i ← gets currentBlockIndex;
        blocks ← gets codeBlocks;
        (if bool_decide (i < length blocks) then
           next ← currentBlock;
           nextMessage ← createExecuteRequestMessage (block_code next);
           modify (set_status (msg_id (header nextMessage)) {| done := false; output := "" |});;
           ws_send nextMessage
         else
           ws_close;;
           res ← gets results;
           resolve (collect blocks res));;
        mret (status, "")
      else mret (status, "")
  | KOther => mret (status, "")
  end.

Definition onopen : Handler unit :=
  blocks ← gets codeBlocks;
  if bool_decide (0 < length blocks) then
    block ← currentBlock;
    message ← createExecuteRequestMessage (block_code block);
    modify (set_status (msg_id (header message)) {| done := false; output := "" |});;
    ws_send message
  else mret tt.

(** [JSON.parse(event.data)] followed by the reads of [msg.header] and
    [msg.parent_header]. *)
Definition JSON_parse (event_data : payload) : Handler InMessage :=
  match event_data with
  | Malformed => throw SyntaxError
  | JsonNull => throw TypeError
  | Json msg => mret msg
  end.

(** [msg.header?.msg_type] and [msg.parent_header?.msg_id]. *)
Definition header_msg_type (msg : InMessage) : option string :=
  in_header msg ≫= in_msg_type.

Definition parent_msg_id (msg : InMessage) : option string :=
  in_parent_header msg ≫= in_msg_id.

Definition onmessage (event_data : payload) : Handler unit :=
  msg ← JSON_parse event_data;
  let msgType := header_msg_type msg in
  let parentMsgId := parent_msg_id msg in
  pending ← gets messageStatus;
  match parentMsgId with
  | None => mret tt
  | Some parentMsgId =>
      if negb (truthy parentMsgId) then mret tt else
      match pending !! parentMsgId with
      | None => mret tt
      | Some status =>
          '(status, newOutput) ← dispatch msgType (in_content msg) parentMsgId status;
          (if truthy newOutput && onOutput then
             block ← currentBlock;
             modify (call_onOutput (block_id block) newOutput)
           else mret tt);;
          modify (set_status parentMsgId status)
      end
  end.

Definition onerror : Handler unit :=
  reject "WebSocket error".

Definition onclose : Handler unit :=
  blocks ← gets codeBlocks;
  i ← gets currentBlockIndex;
  if bool_decide (i < length blocks) then
    reject "WebSocket closed before execution completed"
  else mret tt.

(** The state in which the promise executor leaves the closure: the socket
    has been constructed and the four handlers are installed. *)
Definition executeNotebookBlocks (blocks : list CodeBlock) : state :=
  {| codeBlocks := blocks; results := ∅; currentBlockIndex := 0;
     messageStatus := ∅; promise := Pending;
     ws := [WsNew (getWebSocketUrl serverConfig kernelId)];
     notified := []; issued := 0 |}.

(** The guarded call [if (newOutput && onOutput) onOutput(blockId, newOutput)]. *)
Definition notify (blockId newOutput : string) (s : state) : state :=
  if truthy newOutput && onOutput then call_onOutput blockId newOutput s else s.

(** ** The session *)

Definition handler_of (e : event) : Handler unit :=
  match e with
  | MessageEvent event_data => onmessage event_data
  | ErrorEvent => onerror
  | CloseEvent => onclose
  end.

(** One signal delivered to its handler. An exception that leaves the
    handler is reported by the host; the writes made before it stay. *)
Definition deliver (s : state) (e : event) : state := (handler_of e s).1.

Definition deliver_all (s : state) (es : list event) : state := foldl deliver s es.

(** The session: the socket opens, then the signals arrive in order. *)
Definition run (blocks : list CodeBlock) (es : list event) : state :=
  deliver_all (onopen (executeNotebookBlocks blocks)).1 es.

(** [executeCode] passes this one-cell batch and returns [results[0]]. *)
Definition executeCode_blocks (code : string) : list CodeBlock :=
  [{| block_id := "single"; block_notebookId := "temp";
      block_code := code; block_hasError := None |}].


(** ** A relational reading of the handlers

    One constructor for each path through a handler, with the state the
    path leaves behind and the way it completes. [handles_sound] below
    shows that the handlers take these paths and no other. *)

(** The id [createExecuteRequestMessage] generates on its [i]-th call. *)
Definition msgId (i : nat) : string := "msg-" +:+ stamp i.

(** The request for cell [i] of the batch, when it is the [i]-th built. *)
Definition request (blocks : list CodeBlock) (i : nat) : JupyterMessage :=
  execute_request (msgId i) (default "" (block_code <$> blocks !! i)).

(** The messages passed to [ws.send], oldest first. *)
Definition sent (calls : list ws_call) : list JupyterMessage :=
  omap (λ c, match c with WsSend m => Some m | _ => None end) calls.

(** The value the [switch] leaves in [newOutput]; [None] where the case
    throws before it has built the fragment. *)
Definition new_output (kind : msg_kind) (content : option InContent) : option string :=
  match kind with
  | KStream => c ← content; Some (if truthy_opt (text c) then interpolate (text c) else "")
  | KResult => c ← content; d ← data c; Some (data_fragment d)
  | KError => c ← content; tb ← traceback c; Some (error_fragment c tb)
  | KStatus => c ← content; Some ""
  | KOther => Some ""
  end.

(** The guard of [onmessage] lets [msg] through, with [status] the entry
    under its parent id. *)
Definition matched (s : state) (msg : InMessage) (parentMsgId : string)
    (status : MessageStatus) : Prop :=
  parent_msg_id msg = Some parentMsgId ∧ truthy parentMsgId = true ∧
  messageStatus s !! parentMsgId = Some status.

(** The [status] case takes its [if]. *)
Definition completes (msg : InMessage) (status : MessageStatus) : Prop :=
  kind_of (header_msg_type msg) = KStatus ∧
  (∃ c, in_content msg = Some c ∧ execution_state c = Some "idle") ∧
  done status = false.

Inductive handles (s : state) : event → state → completion unit → Prop :=
  | H_error :
      handles s ErrorEvent
        (with_promise (settle (Rejected "WebSocket error")) s) (Normal tt)
  | H_close_early :
      (currentBlockIndex s < length (codeBlocks s))%nat →
      handles s CloseEvent
        (with_promise (settle (Rejected "WebSocket closed before execution completed")) s)
        (Normal tt)
  | H_close_late :
      (length (codeBlocks s) ≤ currentBlockIndex s)%nat →
      handles s CloseEvent s (Normal tt)
  | H_malformed :
      handles s (MessageEvent Malformed) s (Throw SyntaxError)
  | H_null :
      handles s (MessageEvent JsonNull) s (Throw TypeError)
  | H_unmatched msg :
      match parent_msg_id msg with
      | None => True
      | Some k => truthy k = false ∨ messageStatus s !! k = None
      end →
      handles s (MessageEvent (Json msg)) s (Normal tt)
  | H_no_fragment msg k status :
      matched s msg k status →
      new_output (kind_of (header_msg_type msg)) (in_content msg) = None →
      handles s (MessageEvent (Json msg)) s (Throw TypeError)
  | H_quiet msg k status :
      matched s msg k status →
      kind_of (header_msg_type msg) = KOther ∨
      (kind_of (header_msg_type msg) = KStatus ∧ is_Some (in_content msg) ∧
       ¬ completes msg status) →
      handles s (MessageEvent (Json msg)) (set_status k status s) (Normal tt)
  | H_output msg k status newOutput :
      matched s msg k status →
      kind_of (header_msg_type msg) = KStream ∨ kind_of (header_msg_type msg) = KResult →
      new_output (kind_of (header_msg_type msg)) (in_content msg) = Some newOutput →
      truthy newOutput && onOutput = false →
      let status' := append_output status newOutput in
      handles s (MessageEvent (Json msg))
        (set_status k status' (set_status k status' s)) (Normal tt)
  | H_output_notified msg k status newOutput block :
      matched s msg k status →
      kind_of (header_msg_type msg) = KStream ∨ kind_of (header_msg_type msg) = KResult →
      new_output (kind_of (header_msg_type msg)) (in_content msg) = Some newOutput →
      truthy newOutput && onOutput = true →
      codeBlocks s !! currentBlockIndex s = Some block →
      let status' := append_output status newOutput in
      handles s (MessageEvent (Json msg))
        (set_status k status'
           (call_onOutput (block_id block) newOutput (set_status k status' s)))
        (Normal tt)
  | H_output_throws msg k status newOutput :
      matched s msg k status →
      kind_of (header_msg_type msg) = KStream ∨ kind_of (header_msg_type msg) = KResult →
      new_output (kind_of (header_msg_type msg)) (in_content msg) = Some newOutput →
      truthy newOutput && onOutput = true →
      codeBlocks s !! currentBlockIndex s = None →
      handles s (MessageEvent (Json msg))
        (set_status k (append_output status newOutput) s) (Throw TypeError)
  | H_kernel_error msg k status newOutput block :
      matched s msg k status →
      kind_of (header_msg_type msg) = KError →
      new_output KError (in_content msg) = Some newOutput →
      codeBlocks s !! currentBlockIndex s = Some block →
      let status' := append_output status newOutput in
      handles s (MessageEvent (Json msg))
        (set_status k status'
           (notify (block_id block) newOutput
              (with_codeBlocks (alter set_hasError (currentBlockIndex s))
                 (set_status k status' s))))
        (Normal tt)
  | H_kernel_error_throws msg k status newOutput :
      matched s msg k status →
      kind_of (header_msg_type msg) = KError →
      new_output KError (in_content msg) = Some newOutput →
      codeBlocks s !! currentBlockIndex s = None →
      handles s (MessageEvent (Json msg))
        (set_status k (append_output status newOutput) s) (Throw TypeError)
  | H_idle_throws msg k status :
      matched s msg k status →
      completes msg status →
      codeBlocks s !! currentBlockIndex s = None →
      handles s (MessageEvent (Json msg))
        (set_status k (mark_done status) s) (Throw TypeError)
  | H_idle_next msg k status block next :
      matched s msg k status →
      completes msg status →
      codeBlocks s !! currentBlockIndex s = Some block →
      codeBlocks s !! S (currentBlockIndex s) = Some next →
      let status' := mark_done status in
      let nextMessage := execute_request (msgId (issued s)) (block_code next) in
      handles s (MessageEvent (Json msg))
        (set_status k status'
           (with_ws (λ calls, (calls ++ [WsSend nextMessage])%list)
              (set_status (msgId (issued s)) {| done := false; output := "" |}
                 (with_issued S
                    (with_currentBlockIndex S
                       (with_results <[block_id block := output status]>
                          (set_status k status' s)))))))
        (Normal tt)
  | H_idle_last msg k status block :
      matched s msg k status →
      completes msg status →
      codeBlocks s !! currentBlockIndex s = Some block →
      codeBlocks s !! S (currentBlockIndex s) = None →
      let status' := mark_done status in
      let res := <[block_id block := output status]> (results s) in
      handles s (MessageEvent (Json msg))
        (set_status k status'
           (with_promise (settle (Resolved (collect (codeBlocks s) res)))
              (with_ws (λ calls, (calls ++ [WsClose])%list)
                 (with_currentBlockIndex S
                    (with_results (λ _, res) (set_status k status' s))))))
        (Normal tt).

(** ** The invariant of a session *)

Definition same_cells (bs1 bs2 : list CodeBlock) : Prop :=
  block_id <$> bs1 = block_id <$> bs2 ∧ block_code <$> bs1 = block_code <$> bs2.

Record Inv (blocks : list CodeBlock) (s : state) : Prop := {
  inv_cells : same_cells (codeBlocks s) blocks;
  inv_index : (currentBlockIndex s ≤ length blocks)%nat;
  inv_issued : issued s = (S (currentBlockIndex s) `min` length blocks)%nat;
  inv_ws : ws s = WsNew (getWebSocketUrl serverConfig kernelId)
                  :: (WsSend <$> (request blocks <$> seq 0 (issued s)))
                  ++ (if bool_decide (currentBlockIndex s = length blocks ∧ (0 < length blocks)%nat)
                      then [WsClose] else []);
  inv_pending : ∀ k st, messageStatus s !! k = Some st → done st = false →
                (currentBlockIndex s < length blocks)%nat ∧ k = msgId (currentBlockIndex s);
  inv_current : (currentBlockIndex s < length blocks)%nat →
                is_Some (messageStatus s !! msgId (currentBlockIndex s));
  inv_resolved : ∀ rs, promise s = Resolved rs →
                 currentBlockIndex s = length blocks ∧ rs = collect (codeBlocks s) (results s)
}.

(** ** Progress of a session *)

(** The request of the current cell is recorded and not yet done. *)
Definition in_flight (s : state) : Prop :=
  (currentBlockIndex s < length (codeBlocks s))%nat →
  ∃ st, messageStatus s !! msgId (currentBlockIndex s) = Some st ∧ done st = false.

(** The kernel reports [idle] for each request in turn. *)
Definition idle_replies (n : nat) : list event :=
  (λ i, MessageEvent (Json (idle_status (msgId i)))) <$> seq 0 n.

(** ** Reading the error flag *)

(** An [error] message passes the guard while cell [j] is the current one. *)
Definition error_arrives (s : state) (msg : InMessage) (j : nat) : Prop :=
  currentBlockIndex s = j ∧ kind_of (header_msg_type msg) = KError ∧
  ∃ k status, matched s msg k status.

(** The [hasError] property of cell [j]: [None] when there is no such
    cell, [Some None] when the property is undefined. *)
Definition hasError_at (s : state) (j : nat) : option (option bool) :=
  block_hasError <$> codeBlocks s !! j.

(** ** Views of the store and of a run *)

(** The store with the promise put aside. *)
Definition forget_promise (s : state) : state := with_promise (λ _, Pending) s.

(** The signal is an inbound message. *)
Definition is_message (e : event) : bool :=
  match e with
  | MessageEvent _ => true
  | _ => false
  end.

(** What of a cell no handler writes. *)
Definition cell_identity (b : CodeBlock) : string * string * string :=
  (block_id b, block_notebookId b, block_code b).

(** [stream] messages for one request, one for each text. *)
Definition stream_events (parentMsgId : string) (texts : list string) : list event :=
  (λ t, MessageEvent (Json (inbound "stream" parentMsgId (stream_content t)))) <$> texts.

(** The texts one after the other. *)
Definition concat_texts (texts : list string) : string :=
  foldr String.append "" texts.

(** * Properties *)

Ltac unfold_handler :=
  unfold onmessage, onopen, onclose, onerror, dispatch, currentBlock,
    createExecuteRequestMessage, write_status, ws_send, ws_close, resolve, reject,
    JSON_parse, deref, gets, modify, throw;
  unfold mbind, mret, Handler_bind, Handler_ret, bind, ret.

Ltac simpl_state :=
  cbn [codeBlocks results currentBlockIndex messageStatus promise ws notified issued
       with_codeBlocks with_results with_currentBlockIndex with_messageStatus
       with_promise with_ws with_notified with_issued set_status call_onOutput
       fst snd] in *.

Lemma handles_sound s e : handles s e (handler_of e s).1 (handler_of e s).2.
Proof.
  destruct e as [[| |msg]| |]; simpl.
  - apply H_malformed.
  - apply H_null.
  - unfold_handler. cbn [fst snd].
    destruct (parent_msg_id msg) as [k|] eqn:Hp;
      [|apply H_unmatched; by rewrite Hp].
    destruct (truthy k) eqn:Hk; cbn [negb];
      [|apply H_unmatched; rewrite Hp; by left].
    destruct (messageStatus s !! k) as [status|] eqn:Hs;
      [|apply H_unmatched; rewrite Hp; by right].
    assert (matched s msg k status) as Hm by done.
    destruct (kind_of (header_msg_type msg)) eqn:Hkind.
    + (* stream *)
      destruct (in_content msg) as [c|] eqn:Hc; cbn [fst snd];
        [|eapply H_no_fragment; [done|by rewrite Hkind, Hc]].
      set (newOutput := if truthy_opt (text c) then interpolate (text c) else "").
      assert (new_output (kind_of (header_msg_type msg)) (in_content msg) = Some newOutput)
        as Hf by (by rewrite Hkind, Hc).
      destruct (truthy newOutput && onOutput) eqn:Hn; simpl_state.
      * destruct (codeBlocks s !! currentBlockIndex s) as [block|] eqn:Hb; cbn [fst snd].
        -- eapply H_output_notified; eauto.
        -- eapply H_output_throws; eauto.
      * eapply H_output; eauto.
    + (* execute_result, display_data *)
      destruct (in_content msg) as [c|] eqn:Hc; cbn [fst snd];
        [|eapply H_no_fragment; [done|by rewrite Hkind, Hc]].
      destruct (data c) as [d|] eqn:Hd; cbn [fst snd];
        [|eapply H_no_fragment; [done|by rewrite Hkind, Hc; cbn; rewrite Hd]].
      assert (new_output (kind_of (header_msg_type msg)) (in_content msg)
              = Some (data_fragment d)) as Hf by (by rewrite Hkind, Hc; cbn; rewrite Hd).
      destruct (truthy (data_fragment d) && onOutput) eqn:Hn; simpl_state.
      * destruct (codeBlocks s !! currentBlockIndex s) as [block|] eqn:Hb; cbn [fst snd].
        -- eapply H_output_notified; eauto.
        -- eapply H_output_throws; eauto.
      * eapply H_output; eauto.
    + (* error *)
      destruct (in_content msg) as [c|] eqn:Hc; cbn [fst snd];
        [|eapply H_no_fragment; [done|by rewrite Hkind, Hc]].
      destruct (traceback c) as [tb|] eqn:Ht; cbn [fst snd];
        [|eapply H_no_fragment; [done|by rewrite Hkind, Hc; cbn; rewrite Ht]].
      assert (new_output KError (in_content msg) = Some (error_fragment c tb))
        as Hf by (by rewrite Hc; cbn; rewrite Ht).
      simpl_state.
      destruct (codeBlocks s !! currentBlockIndex s) as [block|] eqn:Hb; cbn [fst snd];
        [|eapply H_kernel_error_throws; eauto].
      pose proof (H_kernel_error s msg k status _ block Hm Hkind Hf Hb) as H.
      cbn zeta in H. unfold notify in H.
      destruct (truthy (error_fragment c tb) && onOutput) eqn:Hn; simpl_state.
      * rewrite list_lookup_alter_eq, Hb. cbn [fmap option_fmap option_map fst snd].
        apply H.
      * apply H.
    + (* status *)
      destruct (in_content msg) as [c|] eqn:Hc; cbn [fst snd];
        [|eapply H_no_fragment; [done|by rewrite Hkind, Hc]].
      destruct (bool_decide (execution_state c = Some "idle") && negb (done status)) eqn:Hi.
      * apply andb_true_iff in Hi as [Hi Hd%negb_true_iff]. apply bool_decide_eq_true in Hi.
        assert (completes msg status) as Hcomp by (split_and!; eauto).
        simpl_state.
        destruct (codeBlocks s !! currentBlockIndex s) as [block|] eqn:Hb; cbn [fst snd];
          [|eapply H_idle_throws; eauto].
        simpl_state.
        case_bool_decide as Hlt; cbn [fst snd]; simpl_state.
        -- apply lookup_lt_is_Some_2 in Hlt as [next Hnext]. rewrite Hnext.
           cbn [fst snd]. simpl_state. change (truthy "" && onOutput) with false.
           cbn [fst snd].
           pose proof (H_idle_next s msg k status block next Hm Hcomp Hb Hnext) as H.
           cbn zeta in H. apply H.
        -- change (truthy "" && onOutput) with false. cbn [fst snd].
           pose proof (H_idle_last s msg k status block Hm Hcomp Hb) as H.
           cbn zeta in H. apply H. apply lookup_ge_None. lia.
      * cbn [fst snd]. change (truthy "" && onOutput) with false. cbn [fst snd].
        eapply H_quiet; [done|]. right. split_and!; eauto.
        intros (_ & (c' & Hc' & Hidle) & Hd). simplify_eq.
        rewrite Hd in Hi. simpl in Hi. rewrite andb_true_r in Hi.
        by apply bool_decide_eq_false in Hi.
    + (* any other type *)
      cbn [fst snd]. change (truthy "" && onOutput) with false. cbn [fst snd].
      eapply H_quiet; eauto.
  - apply H_error.
  - unfold_handler. cbn [fst snd].
    case_bool_decide; cbn [fst snd].
    + by apply H_close_early.
    + apply H_close_late. lia.
Qed.


Lemma deliver_handles s e : ∃ c, handles s e (deliver s e) c.
Proof. eexists. apply handles_sound. Qed.

(** ** The invariant is established and kept *)

Lemma same_cells_length bs1 bs2 : same_cells bs1 bs2 → length bs1 = length bs2.
Proof. intros [H _]. by rewrite <-(length_fmap block_id bs1), H, length_fmap. Qed.

Lemma same_cells_alter bs i : same_cells (alter set_hasError i bs) bs.
Proof.
  split; apply list_eq; intros j; rewrite !list_lookup_fmap;
    (destruct (decide (i = j)) as [->|];
     [rewrite list_lookup_alter_eq; by destruct (bs !! j)
     |by rewrite list_lookup_alter_ne]).
Qed.

Lemma same_cells_trans bs1 bs2 bs3 :
  same_cells bs1 bs2 → same_cells bs2 bs3 → same_cells bs1 bs3.
Proof. intros [??] [??]. split; congruence. Qed.

Lemma Inv_open blocks : Inv blocks (onopen (executeNotebookBlocks blocks)).1.
Proof.
  unfold_handler. simpl. destruct blocks as [|b blocks]; simpl.
  - split; simpl; try done. all: try (intros k st; by rewrite lookup_empty). lia.
  - split; simpl; try done; try lia.
    + intros k st Hk Hd. split; [lia|].
      destruct (decide (k = msgId 0)) as [->|]; [done|].
      by rewrite lookup_insert_ne, lookup_empty in Hk.
    + intros _. unfold msgId. by rewrite lookup_insert_eq.
Qed.

Lemma settle_Resolved outcome p rs :
  settle outcome p = Resolved rs → p = Resolved rs ∨ (p = Pending ∧ outcome = Resolved rs).
Proof. destruct p; simpl; intros; simplify_eq; eauto. Qed.

Lemma Inv_set_status blocks s k st st' :
  Inv blocks s → messageStatus s !! k = Some st → done st' = done st →
  Inv blocks (set_status k st' s).
Proof.
  intros [] Hk Hd. split; simpl_state; try done.
  - intros k' st0. destruct (decide (k = k')) as [<-|].
    + rewrite lookup_insert_eq. intros [= <-] ?. apply (inv_pending0 k st); congruence.
    + rewrite lookup_insert_ne by done. apply inv_pending0.
  - intros Hlt. destruct (decide (k = msgId (currentBlockIndex s))) as [->|].
    + by rewrite lookup_insert_eq.
    + rewrite lookup_insert_ne by done. auto.
Qed.

Lemma Inv_call_onOutput blocks s blockId newOutput :
  Inv blocks s → Inv blocks (call_onOutput blockId newOutput s).
Proof. intros []. by split. Qed.

Lemma Inv_set_hasError blocks s :
  Inv blocks s → (currentBlockIndex s < length blocks)%nat →
  Inv blocks (with_codeBlocks (alter set_hasError (currentBlockIndex s)) s).
Proof.
  intros [] Hlt. split; simpl_state; try done.
  - eapply same_cells_trans; [apply same_cells_alter|done].
  - intros rs Hrs. apply inv_resolved0 in Hrs as [? _]. lia.
Qed.

Lemma lookup_set_status_eq s k st : messageStatus (set_status k st s) !! k = Some st.
Proof. simpl_state. by rewrite lookup_insert_eq. Qed.

Lemma same_cells_code bs1 bs2 i b :
  same_cells bs1 bs2 → bs1 !! i = Some b → block_code <$> bs2 !! i = Some (block_code b).
Proof.
  intros [_ H] Hb. rewrite <-list_lookup_fmap, <-H, list_lookup_fmap. by rewrite Hb.
Qed.

Lemma Inv_deliver blocks s e : Inv blocks s → Inv blocks (deliver s e).
Proof.
  intros HI. destruct (deliver_handles s e) as [c H].
  pose proof (same_cells_length _ _ (inv_cells _ _ HI)) as Hlen.
  destruct H as [ | | | | | | |msg k st [_ [_ Hk]] _
                 |msg k st out [_ [_ Hk]] _ _ _
                 |msg k st out b [_ [_ Hk]] _ _ _ _
                 |msg k st out [_ [_ Hk]] _ _ _ _
                 |msg k st out b [_ [_ Hk]] _ _ Hb
                 |msg k st out [_ [_ Hk]] _ _ _
                 |msg k st [_ [_ Hk]] Hcomp Hb
                 |msg k st b next [_ [_ Hk]] Hcomp Hb Hnext
                 |msg k st b [_ [_ Hk]] Hcomp Hb Hnext]; try done.
  - destruct HI. split; simpl_state; try done.
    intros rs [?|[_ ?]]%settle_Resolved; [auto|done].
  - destruct HI. split; simpl_state; try done.
    intros rs [?|[_ ?]]%settle_Resolved; [auto|done].
  - by eapply Inv_set_status.
  - eapply Inv_set_status; [|apply lookup_set_status_eq|done].
    by eapply Inv_set_status.
  - eapply Inv_set_status; [|apply lookup_set_status_eq|done].
    apply Inv_call_onOutput. by eapply Inv_set_status.
  - by eapply Inv_set_status.
  - apply lookup_lt_Some in Hb. rewrite Hlen in Hb.
    assert (Inv blocks (with_codeBlocks (alter set_hasError (currentBlockIndex s))
                          (set_status k (append_output st out) s))) as HI'.
    { apply (Inv_set_hasError blocks (set_status k (append_output st out) s)); [|done].
      by eapply Inv_set_status. }
    unfold notify. destruct (truthy out && onOutput).
    + eapply Inv_set_status; [by apply Inv_call_onOutput| |done].
      simpl_state. apply lookup_insert_eq.
    + eapply Inv_set_status; [done| |done]. simpl_state. apply lookup_insert_eq.
  - by eapply Inv_set_status.
  - (* idle, index out of range: excluded by the invariant *)
    destruct Hcomp as (_ & _ & Hd).
    destruct (inv_pending _ _ HI k st Hk Hd) as [Hlt _].
    apply lookup_ge_None in Hb. lia.
  - (* idle, next request *)
    destruct Hcomp as (_ & _ & Hd).
    destruct (inv_pending _ _ HI k st Hk Hd) as [Hlt ->].
    apply lookup_lt_Some in Hnext as Hlt'. rewrite Hlen in Hlt'.
    pose proof (same_cells_code _ _ _ _ (inv_cells _ _ HI) Hnext) as Hcode.
    assert (issued s = S (currentBlockIndex s)) as Hiss
      by (rewrite (inv_issued _ _ HI); lia).
    destruct HI. unfold nextMessage. rewrite !Hiss. split; simpl_state; try done.
    + lia.
    + rewrite inv_ws0, !Hiss. rewrite (bool_decide_eq_false_2 (currentBlockIndex s = _ ∧ _)) by lia.
      rewrite (bool_decide_eq_false_2 (S (currentBlockIndex s) = _ ∧ _)) by lia.
      rewrite !app_nil_r. rewrite (seq_S (S (currentBlockIndex s))), !fmap_app.
      cbn [fmap list_fmap Nat.add]. rewrite <-app_comm_cons. do 3 f_equal.
      unfold request. by rewrite Hcode.
    + intros k' st'. destruct (decide (msgId (currentBlockIndex s) = k')) as [<-|Hne].
      { rewrite lookup_insert_eq. by intros [= <-]. }
      rewrite lookup_insert_ne by done.
      destruct (decide (msgId (S (currentBlockIndex s)) = k')) as [<-|Hne'].
      { done. }
      rewrite lookup_insert_ne, lookup_insert_ne by done.
      intros Hk' Hd'. destruct (inv_pending0 _ _ Hk' Hd') as [_ ->]. done.
    + intros _.
      destruct (decide (msgId (currentBlockIndex s) = msgId (S (currentBlockIndex s))))
        as [<-|Hne].
      { by rewrite lookup_insert_eq. }
      by rewrite lookup_insert_ne, lookup_insert_eq.
    + intros rs Hrs. apply inv_resolved0 in Hrs as [? _]. lia.
  - (* idle, last cell *)
    destruct Hcomp as (_ & _ & Hd).
    destruct (inv_pending _ _ HI k st Hk Hd) as [Hlt ->].
    apply lookup_ge_None in Hnext. rewrite Hlen in Hnext.
    destruct HI. split; simpl_state; try done.
    + lia.
    + rewrite inv_ws0. rewrite (bool_decide_eq_false_2 (currentBlockIndex s = _ ∧ _)) by lia.
      rewrite (bool_decide_eq_true_2 (S (currentBlockIndex s) = _ ∧ _)) by lia.
      by rewrite app_nil_r.
    + intros k' st'. destruct (decide (msgId (currentBlockIndex s) = k')) as [<-|Hne].
      { rewrite lookup_insert_eq. by intros [= <-]. }
      rewrite !lookup_insert_ne by done.
      intros Hk' Hd'. destruct (inv_pending0 _ _ Hk' Hd') as [_ ->]. done.
    + lia.
    + intros rs [Hrs|[_ [= <-]]]%settle_Resolved.
      * apply inv_resolved0 in Hrs as [? _]. lia.
      * split; [lia|done].
Qed.

Lemma Inv_deliver_all blocks es s : Inv blocks s → Inv blocks (deliver_all s es).
Proof.
  revert s. induction es as [|e es IH]; intros s HI; simpl; [done|].
  apply IH. by apply Inv_deliver.
Qed.

Lemma Inv_run blocks es : Inv blocks (run blocks es).
Proof. apply Inv_deliver_all, Inv_open. Qed.


(** ** The relation is a function *)

Lemma matched_inj s msg k1 st1 k2 st2 :
  matched s msg k1 st1 → matched s msg k2 st2 → k1 = k2 ∧ st1 = st2.
Proof. intros (?&?&?) (?&?&?). split; congruence. Qed.

Lemma matched_not_unmatched s msg k st :
  matched s msg k st →
  match parent_msg_id msg with
  | None => True
  | Some k => truthy k = false ∨ messageStatus s !! k = None
  end → False.
Proof. intros (->&?&?) [|]; congruence. Qed.

Ltac det_step :=
  match goal with
  | H1 : matched ?s ?m ?k1 ?st1, H2 : matched ?s ?m ?k2 ?st2 |- _ =>
      destruct (matched_inj _ _ _ _ _ _ H1 H2) as [-> ->]; clear H2
  | H1 : matched ?s ?m _ _, H2 : match parent_msg_id ?m with _ => _ end |- _ =>
      destruct (matched_not_unmatched _ _ _ _ H1 H2)
  | H : ¬ completes _ _ |- _ => exfalso; apply H; assumption
  | H1 : completes ?m ?st, H2 : kind_of (header_msg_type ?m) = _ |- _ =>
      rewrite (proj1 H1) in H2; discriminate H2
  | H1 : completes ?m ?st, H2 : kind_of (header_msg_type ?m) = _ ∨ _ |- _ =>
      rewrite (proj1 H1) in H2
  | H1 : completes ?m ?st, H2 : new_output (kind_of (header_msg_type ?m)) _ = None |- _ =>
      destruct H1 as (Hk & (? & Hc & _) & _); rewrite Hk, Hc in H2; discriminate H2
  | H1 : kind_of ?t = _, H2 : kind_of ?t = _ |- _ =>
      rewrite H1 in H2; try discriminate H2; clear H2
  | H1 : kind_of ?t = _, H2 : kind_of ?t = _ ∨ _ |- _ => rewrite H1 in H2
  | H1 : kind_of ?t = _, H2 : new_output (kind_of ?t) _ = _ |- _ => rewrite H1 in H2
  | H : _ ∨ _ |- _ => destruct H
  | H : _ ∧ _ |- _ => destruct H
  | H : is_Some _ |- _ => destruct H
  | H1 : ?x = Some _, H2 : context [?x] |- _ => rewrite H1 in H2; cbn in H2
  | H1 : ?x = true, H2 : ?x = false |- _ => rewrite H1 in H2; discriminate H2
  | H : Some _ = Some _ |- _ => injection H as ?; subst
  | H : _ = _ |- _ => discriminate H
  end.

Lemma handles_deterministic s e s1 c1 s2 c2 :
  handles s e s1 c1 → handles s e s2 c2 → s1 = s2 ∧ c1 = c2.
Proof.
  intros H1 H2. destruct H1; inversion H2; subst; try done; try lia.
  all: repeat det_step; try done.
  all: try match goal with H : truthy ?x && _ = _ |- _ => try rewrite H end; try done.
Qed.

Lemma handles_deliver s e s' c :
  handles s e s' c → deliver s e = s' ∧ (handler_of e s).2 = c.
Proof. intros H. apply (handles_deterministic _ _ _ _ _ _ (handles_sound s e) H). Qed.


(** ** Requests on the wire *)

Lemma sent_app calls1 calls2 : sent (calls1 ++ calls2) = (sent calls1 ++ sent calls2)%list.
Proof. apply omap_app. Qed.

Lemma sent_sends ms : sent (WsSend <$> ms) = ms.
Proof. induction ms as [|m ms IH]; [done|]. unfold sent in *. cbn. by rewrite IH. Qed.

Lemma Inv_sent blocks s :
  Inv blocks s → sent (ws s) = request blocks <$> seq 0 (issued s).
Proof.
  intros HI. rewrite (inv_ws _ _ HI).
  change (WsNew ?u :: ?l) with ([WsNew u] ++ l)%list.
  rewrite !sent_app, sent_sends. case_bool_decide; simpl; by rewrite app_nil_r.
Qed.

Lemma kind_of_status t : kind_of t = KStatus → t = Some "status".
Proof.
  destruct t as [t|]; [|done]. unfold kind_of.
  repeat match goal with
         | |- context [String.eqb t ?l] => destruct (String.eqb_spec t l)
         end; try done.
  by subst.
Qed.

(** A delivery leaves the requests as they were, or it is the [status]
    case sending the request of the next cell. *)
Lemma deliver_sent s e :
  sent (ws (deliver s e)) = sent (ws s) ∨
  ∃ msg k st next,
    e = MessageEvent (Json msg) ∧ matched s msg k st ∧ completes msg st ∧
    codeBlocks s !! S (currentBlockIndex s) = Some next ∧
    currentBlockIndex (deliver s e) = S (currentBlockIndex s) ∧
    sent (ws (deliver s e)) =
      (sent (ws s) ++ [execute_request (msgId (issued s)) (block_code next)])%list.
Proof.
  destruct (deliver_handles s e) as [c H].
  destruct H; simpl_state; try (by left).
  - left. unfold notify. by destruct (truthy newOutput && onOutput).
  - right. exists msg, k, status, next. split_and!; try done.
    by rewrite sent_app.
  - left. rewrite sent_app. simpl. by rewrite app_nil_r.
Qed.

(** ** Progress when the kernel answers *)

Lemma msgId_inj i j : msgId i = msgId j → stamp i = stamp j.
Proof. unfold msgId. simpl. by intros [=]. Qed.

Lemma in_flight_set_status s k st st' :
  in_flight s → messageStatus s !! k = Some st → done st' = done st →
  in_flight (set_status k st' s).
Proof.
  intros Hf Hk Hd Hlt. simpl_state. destruct (Hf Hlt) as (st0 & Hst0 & Hd0).
  destruct (decide (k = msgId (currentBlockIndex s))) as [->|].
  - rewrite lookup_insert_eq. exists st'. split; [done|]. congruence.
  - rewrite lookup_insert_ne by done. eauto.
Qed.

Section Fresh.

(** Consecutive requests get different ids. *)
Hypothesis stamp_fresh : ∀ i, stamp (S i) ≠ stamp i.

Lemma in_flight_open blocks : in_flight (onopen (executeNotebookBlocks blocks)).1.
Proof.
  unfold_handler. simpl. destruct blocks as [|b blocks]; simpl.
  - intros Hlt. simpl in Hlt. lia.
  - intros _. simpl. eexists. split; [apply lookup_insert_eq|done].
Qed.

Lemma in_flight_deliver blocks s e :
  Inv blocks s → in_flight s → in_flight (deliver s e).
Proof.
  intros HI Hf. destruct (deliver_handles s e) as [c H].
  destruct H as [ | | | | | | |msg k st [_ [_ Hk]] _
                 |msg k st out [_ [_ Hk]] _ _ _
                 |msg k st out b [_ [_ Hk]] _ _ _ _
                 |msg k st out [_ [_ Hk]] _ _ _ _
                 |msg k st out b [_ [_ Hk]] _ _ Hb
                 |msg k st out [_ [_ Hk]] _ _ Hb
                 |msg k st [_ [_ Hk]] Hcomp Hb
                 |msg k st b next [_ [_ Hk]] Hcomp Hb Hnext
                 |msg k st b [_ [_ Hk]] Hcomp Hb Hnext]; try done.
  - by eapply in_flight_set_status.
  - eapply in_flight_set_status; [|apply lookup_set_status_eq|done].
    by eapply in_flight_set_status.
  - eapply in_flight_set_status; [|apply lookup_set_status_eq|done].
    intros Hlt. simpl_state. by eapply (in_flight_set_status s).
  - by eapply in_flight_set_status.
  - unfold notify. destruct (truthy out && onOutput);
      (eapply in_flight_set_status; [|simpl_state; apply lookup_insert_eq|done];
       intros Hlt; simpl_state; rewrite length_alter in Hlt;
       exact (in_flight_set_status s k st status' Hf Hk eq_refl Hlt)).
  - intros Hlt. simpl_state. apply lookup_ge_None in Hb. lia.
  - intros Hlt. simpl_state. apply lookup_ge_None in Hb. lia.
  - (* the next request is recorded under a new id *)
    destruct Hcomp as (_ & _ & Hd).
    destruct (inv_pending _ _ HI k st Hk Hd) as [_ ->].
    assert (issued s = S (currentBlockIndex s)) as ->.
    { rewrite (inv_issued _ _ HI). apply lookup_lt_Some in Hnext.
      rewrite (same_cells_length _ _ (inv_cells _ _ HI)) in Hnext. lia. }
    intros _. simpl_state. exists {| done := false; output := "" |}. split; [|done].
    rewrite lookup_insert_ne; [apply lookup_insert_eq|].
    intros Heq. by apply msgId_inj, eq_sym, stamp_fresh in Heq.
  - intros Hlt. simpl_state. apply lookup_ge_None in Hnext. lia.
Qed.

Lemma in_flight_run blocks es : in_flight (run blocks es).
Proof.
  unfold run. generalize (Inv_open blocks) (in_flight_open blocks).
  generalize (onopen (executeNotebookBlocks blocks)).1.
  induction es as [|e es IH]; intros s HI Hf; simpl; [done|].
  apply IH; [by apply Inv_deliver|by eapply in_flight_deliver].
Qed.

Lemma matched_idle s k st :
  truthy k = true → messageStatus s !! k = Some st → matched s (idle_status k) k st.
Proof. by intros ??. Qed.

Lemma completes_idle k st : done st = false → completes (idle_status k) st.
Proof. intros Hd. split_and!; [done| |done]. eexists. by split. Qed.

Lemma run_snoc blocks es e : run blocks (es ++ [e]) = deliver (run blocks es) e.
Proof. unfold run, deliver_all. by rewrite foldl_app. Qed.

Lemma idle_replies_run blocks k :
  (k ≤ length blocks)%nat →
  currentBlockIndex (run blocks (idle_replies k)) = k ∧
  ((k < length blocks)%nat → promise (run blocks (idle_replies k)) = Pending) ∧
  (k = length blocks → (0 < k)%nat →
   ∃ rs, promise (run blocks (idle_replies k)) = Resolved rs).
Proof.
  induction k as [|k IH]; intros Hk.
  - split_and!; [|intros _|lia]; unfold run; unfold_handler; simpl;
      by destruct blocks.
  - destruct IH as (Hi & Hp & _); [lia|]. specialize (Hp Hk).
    unfold idle_replies in *. rewrite seq_S, fmap_app.
    cbn [fmap list_fmap Nat.add]. rewrite run_snoc.
    set (s := run blocks ((λ i, MessageEvent (Json (idle_status (msgId i)))) <$> seq 0 k)) in *.
    pose proof (Inv_run blocks ((λ i, MessageEvent (Json (idle_status (msgId i)))) <$> seq 0 k))
      as HI. fold s in HI.
    pose proof (same_cells_length _ _ (inv_cells _ _ HI)) as Hlen.
    destruct (in_flight_run blocks ((λ i, MessageEvent (Json (idle_status (msgId i)))) <$> seq 0 k))
      as (st & Hst & Hd); [fold s; lia|]. fold s in Hst. rewrite Hi in Hst.
    destruct (lookup_lt_is_Some_2 (codeBlocks s) (currentBlockIndex s)) as [b Hb]; [lia|].
    pose proof (matched_idle s (msgId k) st eq_refl Hst) as Hm.
    pose proof (completes_idle (msgId k) st Hd) as Hc.
    destruct (codeBlocks s !! S (currentBlockIndex s)) as [next|] eqn:Hnext.
    + destruct (handles_deliver _ _ _ _ (H_idle_next s _ _ _ _ _ Hm Hc Hb Hnext)) as [-> _].
      simpl_state. apply lookup_lt_Some in Hnext.
      split_and!; [lia|done|lia].
    + destruct (handles_deliver _ _ _ _ (H_idle_last s _ _ _ _ Hm Hc Hb Hnext)) as [-> _].
      simpl_state. apply lookup_ge_None in Hnext. rewrite Hp.
      split_and!; [lia|lia|eauto].
Qed.

End Fresh.

(** C1. For a non-empty batch of N cells, at any point of a session: the
    requests sent so far are the execute requests of cells 0, 1, ... in
    order, one for each cell up to the current one and never more than N;
    at most one recorded request is not done, and at most one request has
    been sent beyond the cells completed; once the promise has resolved
    exactly N have been sent; a delivery that sends a request is the
    handling of a [status] message reporting [idle] whose parent id is the
    current cell's request id, and what it sends is the next cell's request;
    and when the kernel reports [idle] for each request in turn (ids of
    consecutive requests being distinct) the batch resolves with exactly N
    requests sent. *)
Theorem C1_requests_one_at_a_time blocks es :
  blocks ≠ [] →
  let s := run blocks es in
  let N := length blocks in
  sent (ws s) = request blocks <$> seq 0 (S (currentBlockIndex s) `min` N)
  ∧ (∀ m, m ∈ sent (ws s) → msg_type (header m) = "execute_request")
  ∧ (length (sent (ws s)) ≤ S (currentBlockIndex s))%nat
  ∧ (∀ k k' st st',
       messageStatus s !! k = Some st → done st = false →
       messageStatus s !! k' = Some st' → done st' = false → k = k')
  ∧ (∀ rs, promise s = Resolved rs → length (sent (ws s)) = N)
  ∧ (∀ e, sent (ws (deliver s e)) ≠ sent (ws s) →
       ∃ msg c,
         e = MessageEvent (Json msg) ∧
         header_msg_type msg = Some "status" ∧
         in_content msg = Some c ∧ execution_state c = Some "idle" ∧
         parent_msg_id msg = Some (msgId (currentBlockIndex s)) ∧
         currentBlockIndex (deliver s e) = S (currentBlockIndex s) ∧
         sent (ws (deliver s e))
         = (sent (ws s) ++ [request blocks (S (currentBlockIndex s))])%list)
  ∧ ((∀ i, stamp (S i) ≠ stamp i) →
     ∃ rs, promise (run blocks (idle_replies N)) = Resolved rs ∧
           length (sent (ws (run blocks (idle_replies N)))) = N).
Proof.
  intros Hne s N. subst N. pose proof (Inv_run blocks es) as HI. fold s in HI.
  pose proof (Inv_sent _ _ HI) as Hsent. rewrite (inv_issued _ _ HI) in Hsent.
  pose proof (inv_index _ _ HI) as Hle.
  assert (0 < length blocks)%nat as HN by (destruct blocks; [done|simpl; lia]).
  split_and!.
  - done.
  - intros m. rewrite Hsent. intros (i & -> & _)%list_elem_of_fmap. done.
  - rewrite Hsent, length_fmap, length_seq. lia.
  - intros k k' st st' Hk Hd Hk' Hd'.
    destruct (inv_pending _ _ HI _ _ Hk Hd) as [_ ->].
    by destruct (inv_pending _ _ HI _ _ Hk' Hd') as [_ ->].
  - intros rs [Hi _]%(inv_resolved _ _ HI).
    rewrite Hsent, length_fmap, length_seq. lia.
  - intros e Hch.
    destruct (deliver_sent s e) as [|(msg & k & st & next & -> & Hm & Hc & Hnext & Hi & Hs)];
      [done|].
    destruct Hc as (Hkind & (c & Hc & Hidle) & Hd). destruct Hm as (Hp & _ & Hk).
    destruct (inv_pending _ _ HI _ _ Hk Hd) as [Hlt ->].
    exists msg, c. split_and!; try done.
    + by apply kind_of_status.
    + assert (issued s = S (currentBlockIndex s)) as Hiss.
      { rewrite (inv_issued _ _ HI). apply lookup_lt_Some in Hnext.
        rewrite (same_cells_length _ _ (inv_cells _ _ HI)) in Hnext. lia. }
      rewrite Hs, Hiss. unfold request.
      by rewrite (same_cells_code _ _ _ _ (inv_cells _ _ HI) Hnext).
  - intros Hfresh.
    destruct (idle_replies_run Hfresh blocks (length blocks)) as (Hi & _ & Hp); [done|].
    destruct Hp as [rs Hrs]; [done|done|]. exists rs. split; [done|].
    pose proof (Inv_run blocks (idle_replies (length blocks))) as HI'.
    rewrite (Inv_sent _ _ HI'), length_fmap, length_seq, (inv_issued _ _ HI'), Hi.
    lia.
Qed.



(** ** Single deliveries *)

Lemma notify_codeBlocks b o s : codeBlocks (notify b o s) = codeBlocks s.
Proof. unfold notify. by destruct (_ && _). Qed.
Lemma notify_results b o s : results (notify b o s) = results s.
Proof. unfold notify. by destruct (_ && _). Qed.
Lemma notify_currentBlockIndex b o s : currentBlockIndex (notify b o s) = currentBlockIndex s.
Proof. unfold notify. by destruct (_ && _). Qed.
Lemma notify_messageStatus b o s : messageStatus (notify b o s) = messageStatus s.
Proof. unfold notify. by destruct (_ && _). Qed.
Lemma notify_promise b o s : promise (notify b o s) = promise s.
Proof. unfold notify. by destruct (_ && _). Qed.
Lemma notify_ws b o s : ws (notify b o s) = ws s.
Proof. unfold notify. by destruct (_ && _). Qed.
Lemma notify_issued b o s : issued (notify b o s) = issued s.
Proof. unfold notify. by destruct (_ && _). Qed.
Lemma notify_notified b o s :
  notified (notify b o s)
  = (notified s ++ if truthy o && onOutput then [(b, o)] else [])%list.
Proof. unfold notify. destruct (_ && _); simpl_state; [done|by rewrite app_nil_r]. Qed.

Ltac simpl_notify :=
  repeat (simpl_state;
          rewrite ?notify_codeBlocks, ?notify_results, ?notify_currentBlockIndex,
            ?notify_messageStatus, ?notify_promise, ?notify_ws, ?notify_issued,
            ?notify_notified).

Lemma deliver_output s msg k status newOutput block :
  matched s msg k status →
  kind_of (header_msg_type msg) = KStream ∨ kind_of (header_msg_type msg) = KResult →
  new_output (kind_of (header_msg_type msg)) (in_content msg) = Some newOutput →
  codeBlocks s !! currentBlockIndex s = Some block →
  deliver s (MessageEvent (Json msg))
  = set_status k (append_output status newOutput)
      (notify (block_id block) newOutput
         (set_status k (append_output status newOutput) s)).
Proof.
  intros Hm Hkind Hf Hb. unfold notify.
  destruct (truthy newOutput && onOutput) eqn:Hn.
  - by destruct (handles_deliver _ _ _ _ (H_output_notified s _ _ _ _ _ Hm Hkind Hf Hn Hb)).
  - by destruct (handles_deliver _ _ _ _ (H_output s _ _ _ _ Hm Hkind Hf Hn)).
Qed.

Lemma open_single block :
  (onopen (executeNotebookBlocks [block])).1
  = {| codeBlocks := [block]; results := ∅; currentBlockIndex := 0;
       messageStatus := {[ msgId 0 := {| done := false; output := "" |} ]};
       promise := Pending;
       ws := [WsNew (getWebSocketUrl serverConfig kernelId);
              WsSend (execute_request (msgId 0) (block_code block))];
       notified := []; issued := 1 |}.
Proof. done. Qed.

(** C2, as the code has it. For a single-cell batch, a [stream] message with
    text a, an [execute_result] message with text/plain b and an idle
    [status] message, all carrying the cell's request id, resolve the
    promise with one result for that cell: its output is a followed by b and
    a line feed, and its [hasError] is the value the cell was passed in
    with. *)
Theorem C2_output_accumulation block :
  promise (run [block]
             [MessageEvent (Json (inbound "stream" (msgId 0) (stream_content "a")));
              MessageEvent (Json (inbound "execute_result" (msgId 0) (plain_content "b")));
              MessageEvent (Json (idle_status (msgId 0)))])
  = Resolved [{| result_id := block_id block;
                 result_hasError := block_hasError block;
                 result_output := "a" +:+ "b" +:+ nl |}].
Proof.
  unfold run, deliver_all. rewrite open_single. cbn [foldl].
  match goal with |- context [deliver ?s (MessageEvent (Json (inbound "stream" _ _)))] =>
    set (s0 := s) end.
  rewrite (deliver_output s0 _ (msgId 0) {| done := false; output := "" |} "a" block);
    [|split_and!; [done..|apply lookup_insert_eq]|by left|done|done].
  match goal with |- context [deliver ?s (MessageEvent (Json (inbound "execute_result" _ _)))] =>
    set (s1 := s) end.
  rewrite (deliver_output s1 _ (msgId 0) {| done := false; output := "a" |}
             ("b" +:+ nl) block);
    [|split_and!; [done..|apply lookup_insert_eq]|by right|done|unfold s1; by simpl_notify].
  match goal with |- promise (deliver ?s _) = _ => set (s2 := s) end.
  assert (matched s2 (idle_status (msgId 0)) (msgId 0)
            {| done := false; output := "a" +:+ "b" +:+ nl |}) as Hm.
  { apply matched_idle; [done|]. apply lookup_insert_eq. }
  assert (codeBlocks s2 !! currentBlockIndex s2 = Some block) as Hb
    by (unfold s2, s1; by simpl_notify).
  assert (codeBlocks s2 !! S (currentBlockIndex s2) = None) as Hnext
    by (unfold s2, s1; by simpl_notify).
  destruct (handles_deliver _ _ _ _
              (H_idle_last s2 _ _ _ block Hm
                 (completes_idle (msgId 0) {| done := false; output := "a" +:+ "b" +:+ nl |}
                    eq_refl) Hb Hnext))
    as [-> _].
  unfold s2, s1. simpl_notify. cbn. by rewrite lookup_insert_eq.
Qed.


(** ** The guard, the close signal and malformed payloads *)

Lemma handles_onmessage s d s' c :
  handles s (MessageEvent d) s' c → onmessage d s = (s', c).
Proof.
  intros [Hs Hc]%handles_deliver. unfold deliver in Hs. simpl in *.
  destruct (onmessage d s). simpl in *. by subst.
Qed.

(** C4. A message whose [parent_header.msg_id] is absent, or is not a key
    of the pending-request map, is ignored: the handler returns normally
    and the whole store (cell outputs, current index, [onOutput] calls
    included) is as it was. *)
Theorem C4_unmatched_message_ignored s msg :
  match parent_msg_id msg with
  | None => True
  | Some k => messageStatus s !! k = None
  end →
  onmessage (Json msg) s = (s, Normal tt).
Proof.
  intros H. apply handles_onmessage, H_unmatched.
  destruct (parent_msg_id msg); [by right|done].
Qed.

(** C5, as the code has it. When the close signal fires while cells remain
    unprocessed, the close handler rejects with the closed-before-completion
    error: a pending promise becomes rejected with that error, and a promise
    that an earlier transport error had already rejected keeps that earlier
    rejection. A close once every cell has completed changes nothing, and a
    resolved promise stays resolved. *)
Theorem C5_close_signal blocks es :
  let s := run blocks es in
  ((currentBlockIndex s < length blocks)%nat →
   (promise s = Pending →
    promise (deliver s CloseEvent)
    = Rejected "WebSocket closed before execution completed") ∧
   (∀ reason, promise s = Rejected reason →
    promise (deliver s CloseEvent) = Rejected reason) ∧
   (∀ rs, promise s ≠ Resolved rs))
  ∧ (currentBlockIndex s = length blocks → deliver s CloseEvent = s)
  ∧ (∀ rs, promise s = Resolved rs → promise (deliver s CloseEvent) = Resolved rs).
Proof.
  intros s. pose proof (Inv_run blocks es) as HI. fold s in HI.
  pose proof (same_cells_length _ _ (inv_cells _ _ HI)) as Hlen.
  assert (∀ rs, promise s = Resolved rs → deliver s CloseEvent = s) as Hres.
  { intros rs [Hi _]%(inv_resolved _ _ HI).
    apply (handles_deliver s CloseEvent s (Normal tt)), H_close_late. lia. }
  split_and!.
  - intros Hlt.
    destruct (handles_deliver _ _ _ _ (H_close_early s ltac:(lia))) as [-> _].
    simpl_state. split_and!.
    + by intros ->.
    + by intros reason ->.
    + intros rs [Hi _]%(inv_resolved _ _ HI). lia.
  - intros Hi. apply (handles_deliver s CloseEvent s (Normal tt)), H_close_late. lia.
  - intros rs Hrs. by rewrite (Hres rs Hrs).
Qed.

(** C6, as the code has it. Called with an empty cell list,
    [executeNotebookBlocks] constructs the WebSocket all the same, and
    whatever signals arrive it makes no other call on it: nothing is sent. *)
Theorem C6_empty_batch es :
  ws (run [] es) = [WsNew (getWebSocketUrl serverConfig kernelId)]
  ∧ sent (ws (run [] es)) = [].
Proof.
  pose proof (Inv_run [] es) as HI.
  pose proof (inv_ws _ _ HI) as Hws. rewrite (inv_issued _ _ HI) in Hws.
  cbn [length] in Hws. rewrite Nat.min_0_r in Hws.
  rewrite bool_decide_eq_false_2 in Hws by lia. simpl in Hws.
  by rewrite Hws.
Qed.

Lemma deliver_all_app s es1 es2 :
  deliver_all s (es1 ++ es2) = deliver_all (deliver_all s es1) es2.
Proof. apply foldl_app. Qed.

(** C7, as the code has it. On a payload that is not JSON the message
    handler raises: [JSON.parse] throws a [SyntaxError] that nothing
    catches. It does so before it has read or written anything, so the
    store is unchanged (the promise is neither resolved nor rejected by it),
    and the session goes on as if the payload had not arrived. *)
Theorem C7_malformed_payload s blocks es1 es2 :
  onmessage Malformed s = (s, Throw SyntaxError)
  ∧ deliver s (MessageEvent Malformed) = s
  ∧ run blocks (es1 ++ MessageEvent Malformed :: es2) = run blocks (es1 ++ es2).
Proof.
  split_and!; [done..|].
  unfold run. by rewrite !deliver_all_app.
Qed.

(** C9. Once the current index has reached the batch length, a message
    that passes the guard and yields a non-empty fragment makes the handler
    throw a [TypeError] when an [onOutput] callback was supplied: it reads a
    property of [codeBlocks[currentBlockIndex]], which is [undefined]. The
    fragment has by then been appended to the matched request's status, and
    nothing else is written. *)
Theorem C9_late_message_throws s msg k status newOutput :
  (length (codeBlocks s) ≤ currentBlockIndex s)%nat →
  matched s msg k status →
  new_output (kind_of (header_msg_type msg)) (in_content msg) = Some newOutput →
  truthy newOutput = true →
  onOutput = true →
  codeBlocks s !! currentBlockIndex s = None ∧
  onmessage (Json msg) s
  = (set_status k (append_output status newOutput) s, Throw TypeError).
Proof.
  intros Hlen Hm Hf Ht Ho.
  assert (codeBlocks s !! currentBlockIndex s = None) as Hb by (by apply lookup_ge_None).
  split; [done|]. apply handles_onmessage.
  destruct (kind_of (header_msg_type msg)) eqn:Hkind.
  - eapply H_output_throws; eauto. + by rewrite Hkind. + by rewrite Ht, Ho.
  - eapply H_output_throws; eauto. + by rewrite Hkind. + by rewrite Ht, Ho.
  - by eapply H_kernel_error_throws.
  - simpl in Hf. destruct (in_content msg); simplify_eq/=.
  - simplify_eq/=.
Qed.


(** ** The error flag *)

Lemma deliver_codeBlocks s e :
  codeBlocks (deliver s e) = codeBlocks s ∨
  ∃ msg, e = MessageEvent (Json msg) ∧ error_arrives s msg (currentBlockIndex s) ∧
         codeBlocks (deliver s e)
         = alter set_hasError (currentBlockIndex s) (codeBlocks s).
Proof.
  destruct (deliver_handles s e) as [c H].
  destruct H; simpl_notify; try (by left).
  right. exists msg. split_and!; try done. split_and!; [done..|]. by exists k, status.
Qed.

Lemma hasError_deliver s e j :
  hasError_at (deliver s e) j = hasError_at s j ∨
  (hasError_at (deliver s e) j = Some (Some true) ∧
   ∃ msg, e = MessageEvent (Json msg) ∧ error_arrives s msg j).
Proof.
  unfold hasError_at.
  destruct (deliver_codeBlocks s e) as [->|(msg & -> & Harr & ->)]; [by left|].
  destruct (decide (currentBlockIndex s = j)) as [<-|Hne].
  - rewrite list_lookup_alter_eq.
    destruct (codeBlocks s !! currentBlockIndex s) as [b|]; [|by left].
    right. split; [done|]. by exists msg.
  - left. by rewrite list_lookup_alter_ne.
Qed.

Lemma hasError_deliver_all es s j :
  hasError_at (deliver_all s es) j = hasError_at s j ∨
  (hasError_at (deliver_all s es) j = Some (Some true) ∧
   ∃ es1 msg es2, es = (es1 ++ MessageEvent (Json msg) :: es2)%list ∧
                  error_arrives (deliver_all s es1) msg j).
Proof.
  revert s. induction es as [|e es IH]; intros s; [by left|].
  change (deliver_all s (e :: es)) with (deliver_all (deliver s e) es).
  destruct (IH (deliver s e)) as [Heq|(Ht & es1 & msg & es2 & -> & Harr)].
  - rewrite Heq.
    destruct (hasError_deliver s e j) as [|(Ht & msg & -> & Harr)]; [by left|].
    right. split; [done|]. by exists [], msg, es.
  - right. split; [done|]. by exists (e :: es1), msg, es2.
Qed.

Lemma collect_lookup bs res j r :
  collect bs res !! j = Some r →
  ∃ b, bs !! j = Some b ∧ result_id r = block_id b ∧
       result_hasError r = block_hasError b ∧
       result_output r = default "" (res !! block_id b).
Proof.
  unfold collect. rewrite list_lookup_fmap.
  destruct (bs !! j) as [b|]; [|done]. intros [= <-]. by exists b.
Qed.

(** C10. No delivery turns a [hasError] flag into [false]. In the resolved
    results a cell carries the [hasError] it was passed in with, unless an
    [error] message passed the guard while that cell was the current one,
    in which case it carries [true]. So a cell passed in with [hasError]
    already [true] is reported with [true], whatever its execution did. *)
Theorem C10_hasError_never_cleared blocks es rs j b r :
  promise (run blocks es) = Resolved rs →
  blocks !! j = Some b →
  rs !! j = Some r →
  (∀ s e i, hasError_at (deliver s e) i = Some (Some false) →
            hasError_at s i = Some (Some false))
  ∧ (result_hasError r = block_hasError b ∨
     (result_hasError r = Some true ∧
      ∃ es1 msg es2, es = (es1 ++ MessageEvent (Json msg) :: es2)%list ∧
                     error_arrives (run blocks es1) msg j))
  ∧ ((∀ es1 msg es2, es = (es1 ++ MessageEvent (Json msg) :: es2)%list →
                     ¬ error_arrives (run blocks es1) msg j) →
     result_hasError r = block_hasError b)
  ∧ (block_hasError b = Some true → result_hasError r = Some true).
Proof.
  intros Hrs Hb Hr.
  destruct (inv_resolved _ _ (Inv_run blocks es) rs Hrs) as [_ ->].
  apply collect_lookup in Hr as (b' & Hb' & _ & Herr & _).
  assert (result_hasError r = block_hasError b ∨
          (result_hasError r = Some true ∧
           ∃ es1 msg es2, es = (es1 ++ MessageEvent (Json msg) :: es2)%list ∧
                          error_arrives (run blocks es1) msg j)) as Hcases.
  { destruct (hasError_deliver_all es (onopen (executeNotebookBlocks blocks)).1 j)
      as [Heq|[Ht Hsplit]].
    - left. unfold hasError_at in Heq. fold (run blocks es) in Heq.
      rewrite Hb' in Heq.
      assert (codeBlocks (onopen (executeNotebookBlocks blocks)).1 = blocks) as Hopen
        by (unfold_handler; simpl; by destruct (bool_decide _), blocks).
      rewrite Hopen, Hb in Heq. simpl in Heq. congruence.
    - right. unfold hasError_at in Ht. fold (run blocks es) in Ht.
      rewrite Hb' in Ht. simpl in Ht. split; [congruence|done]. }
  split_and!.
  - intros s e i Hf. destruct (hasError_deliver s e i) as [<-|[Ht _]]; [done|].
    rewrite Ht in Hf. done.
  - done.
  - intros Hno. destruct Hcases as [|(_ & es1 & msg & es2 & Hes & Harr)]; [done|].
    destruct (Hno _ _ _ Hes Harr).
  - intros Htrue. destruct Hcases as [->|[-> _]]; done.
Qed.


(** ** Kernel-reported errors *)

Lemma matched_inbound s msgType k c st :
  truthy k = true → messageStatus s !! k = Some st → matched s (inbound msgType k c) k st.
Proof. by intros ??. Qed.

Lemma Inv_next_request blocks s next :
  Inv blocks s → codeBlocks s !! S (currentBlockIndex s) = Some next →
  execute_request (msgId (issued s)) (block_code next)
  = request blocks (S (currentBlockIndex s)).
Proof.
  intros HI Hnext. unfold request.
  rewrite (same_cells_code _ _ _ _ (inv_cells _ _ HI) Hnext).
  rewrite (inv_issued _ _ HI). apply lookup_lt_Some in Hnext.
  rewrite (same_cells_length _ _ (inv_cells _ _ HI)) in Hnext.
  by replace (S (currentBlockIndex s) `min` length blocks)%nat
    with (S (currentBlockIndex s)) by lia.
Qed.

(** C3. While a cell is being processed, an [error] message that carries
    the id of that cell's request sets the cell's [hasError] to [true] and
    appends the fragment built from ename, evalue and the joined traceback
    to the request's accumulated output; for ValueError, bad and the two
    traceback lines the fragment is the text of the claim. The handler
    returns normally: the promise, the index and the requests are as they
    were. The following idle [status] for the request (still not done)
    stores the output, fragment included, under the cell's id and moves to
    the next cell: its request is sent, or, after the last cell, a pending
    promise resolves with [hasError] true for the cell. Whenever the
    promise resolves later, that cell's result carries [hasError] true. *)
Theorem C3_kernel_error blocks es c tb :
  let s := run blocks es in
  let i := currentBlockIndex s in
  let newOutput := error_fragment c tb in
  let s1 := deliver s (MessageEvent (Json (inbound "error" (msgId i) c))) in
  let s2 := deliver s1 (MessageEvent (Json (idle_status (msgId i)))) in
  (i < length blocks)%nat →
  traceback c = Some tb →
  ∃ status block,
    messageStatus s !! msgId i = Some status ∧ codeBlocks s !! i = Some block ∧
    hasError_at s1 i = Some (Some true) ∧
    messageStatus s1 = <[msgId i := append_output status newOutput]> (messageStatus s) ∧
    (handler_of (MessageEvent (Json (inbound "error" (msgId i) c))) s).2 = Normal tt ∧
    promise s1 = promise s ∧ currentBlockIndex s1 = i ∧ ws s1 = ws s ∧
    results s1 = results s ∧
    (done status = false →
     currentBlockIndex s2 = S i ∧
     results s2 !! block_id block = Some (output status +:+ newOutput) ∧
     ((S i < length blocks)%nat →
      promise s2 = promise s ∧
      sent (ws s2) = (sent (ws s) ++ [request blocks (S i)])%list) ∧
     (S i = length blocks → promise s = Pending →
      ∃ rs r, promise s2 = Resolved rs ∧ rs !! i = Some r ∧
              result_id r = block_id block ∧ result_hasError r = Some true)) ∧
    (∀ es' rs, promise (deliver_all s1 es') = Resolved rs →
               ∃ r, rs !! i = Some r ∧ result_hasError r = Some true) ∧
    error_fragment (error_content "ValueError" "bad" ["line1"; "line2"]) ["line1"; "line2"]
    = "Error: ValueError" +:+ nl +:+ "bad" +:+ nl +:+ "line1" +:+ nl +:+ "line2".
Proof.
  intros s i newOutput s1 s2 Hlt Htb.
  pose proof (Inv_run blocks es) as HI. fold s in HI.
  pose proof (same_cells_length _ _ (inv_cells _ _ HI)) as Hlen.
  destruct (inv_current _ _ HI Hlt) as [status Hst]. fold i in Hst.
  destruct (lookup_lt_is_Some_2 (codeBlocks s) i) as [block Hb]; [lia|].
  exists status, block.
  pose proof (matched_inbound s "error" (msgId i) c status eq_refl Hst) as Hm.
  assert (new_output KError (in_content (inbound "error" (msgId i) c)) = Some newOutput)
    as Hf by (simpl; by rewrite Htb).
  destruct (handles_deliver _ _ _ _ (H_kernel_error s _ _ _ _ _ Hm eq_refl Hf Hb))
    as [Hs1 Hc]. fold s1 in Hs1. cbn zeta in Hs1.
  assert (Inv blocks s1) as HI1 by apply Inv_deliver, HI.
  assert (hasError_at s1 i = Some (Some true)) as Herr.
  { unfold hasError_at. rewrite Hs1. simpl_notify.
    fold i. by rewrite list_lookup_alter_eq, Hb. }
  assert (messageStatus s1 = <[msgId i := append_output status newOutput]> (messageStatus s))
    as Hms by (rewrite Hs1; simpl_notify; by rewrite insert_insert_eq).
  assert (currentBlockIndex s1 = i) as Hi1 by (rewrite Hs1; by simpl_notify).
  assert (promise s1 = promise s) as Hp1 by (rewrite Hs1; by simpl_notify).
  assert (ws s1 = ws s) as Hws1 by (rewrite Hs1; by simpl_notify).
  assert (results s1 = results s) as Hres1 by (rewrite Hs1; by simpl_notify).
  assert (codeBlocks s1 = alter set_hasError i (codeBlocks s)) as Hcb1
    by (rewrite Hs1; by simpl_notify).
  split_and!; try done.
  - (* the following idle status *)
    intros Hd.
    assert (matched s1 (idle_status (msgId i)) (msgId i) (append_output status newOutput))
      as Hm1 by (apply matched_idle; [done|]; rewrite Hms; apply lookup_insert_eq).
    pose proof (completes_idle (msgId i) (append_output status newOutput) Hd) as Hc1.
    assert (codeBlocks s1 !! currentBlockIndex s1 = Some (set_hasError block)) as Hb1
      by (by rewrite Hi1, Hcb1, list_lookup_alter_eq, Hb).
    destruct (codeBlocks s1 !! S (currentBlockIndex s1)) as [next|] eqn:Hnext.
    + destruct (handles_deliver _ _ _ _ (H_idle_next s1 _ _ _ _ _ Hm1 Hc1 Hb1 Hnext))
        as [Hs2 _]. fold s2 in Hs2. cbn zeta in Hs2.
      pose proof (Inv_next_request _ _ _ HI1 Hnext) as Hreq.
      apply lookup_lt_Some in Hnext as Hlt'. rewrite Hcb1, length_alter, Hi1 in Hlt'.
      rewrite Hs2. simpl_state. rewrite Hi1, Hp1, Hws1, Hres1.
      split_and!; [done|apply lookup_insert_eq| |lia].
      intros _. split; [done|]. rewrite sent_app. simpl.
      by rewrite Hreq, Hi1.
    + destruct (handles_deliver _ _ _ _ (H_idle_last s1 _ _ _ _ Hm1 Hc1 Hb1 Hnext))
        as [Hs2 _]. fold s2 in Hs2. cbn zeta in Hs2.
      apply lookup_ge_None in Hnext. rewrite Hcb1, length_alter, Hi1 in Hnext.
      rewrite Hs2. simpl_state. rewrite Hi1, Hp1, Hres1.
      split_and!; [done|apply lookup_insert_eq|lia|].
      intros _ ->. simpl. eexists _, _. split; [done|].
      unfold collect. rewrite list_lookup_fmap, Hcb1, list_lookup_alter_eq, Hb. simpl.
      split; [done|]. by split.
  - (* any later resolution *)
    intros es' rs Hrs.
    assert (Inv blocks (deliver_all s1 es')) as HI' by (by apply Inv_deliver_all).
    destruct (inv_resolved _ _ HI' rs Hrs) as [_ ->].
    assert (hasError_at (deliver_all s1 es') i = Some (Some true)) as Herr'.
    { destruct (hasError_deliver_all es' s1 i) as [->|[-> _]]; done. }
    unfold hasError_at in Herr'. unfold collect. rewrite list_lookup_fmap.
    destruct (codeBlocks (deliver_all s1 es') !! i) as [b'|]; [|done].
    simpl in *. eexists. split; [done|]. simpl. congruence.
Qed.



(** * Further properties of the handlers *)

(** ** What a delivery leaves alone *)

Lemma set_status_id s k st :
  messageStatus s !! k = Some st → set_status k st s = s.
Proof.
  intros H. destruct s. unfold set_status, with_messageStatus. simpl in *.
  f_equal. by apply insert_id.
Qed.

(** X1. No handler changes the id, the notebook id or the code of a cell,
    nor the number of cells: a delivery can only write [hasError]. *)
Theorem cells_identity_kept s e :
  cell_identity <$> codeBlocks (deliver s e) = cell_identity <$> codeBlocks s
  ∧ length (codeBlocks (deliver s e)) = length (codeBlocks s).
Proof.
  destruct (deliver_codeBlocks s e) as [->|(msg & -> & _ & ->)]; [done|].
  split; [|apply length_alter].
  apply list_eq. intros j. rewrite !list_lookup_fmap.
  destruct (decide (currentBlockIndex s = j)) as [<-|].
  - rewrite list_lookup_alter_eq. by destruct (codeBlocks s !! _).
  - by rewrite list_lookup_alter_ne.
Qed.

(** X2. The current index moves by one exactly when an idle [status] for a
    recorded request that is not done is handled while a cell is current;
    every other delivery leaves it where it is. *)
Theorem index_advances_on_idle s e :
  (currentBlockIndex (deliver s e) = currentBlockIndex s ∨
   currentBlockIndex (deliver s e) = S (currentBlockIndex s))
  ∧ (currentBlockIndex (deliver s e) = S (currentBlockIndex s) ↔
     ∃ msg k status,
       e = MessageEvent (Json msg) ∧ matched s msg k status ∧ completes msg status ∧
       (currentBlockIndex s < length (codeBlocks s))%nat).
Proof.
  assert (currentBlockIndex (deliver s e) = S (currentBlockIndex s) →
          ∃ msg k status,
            e = MessageEvent (Json msg) ∧ matched s msg k status ∧ completes msg status ∧
            (currentBlockIndex s < length (codeBlocks s))%nat) as Hfwd.
  { destruct (deliver_handles s e) as [c H].
    destruct H; simpl_notify; try lia; intros _;
      exists msg, k, status; split_and!; try done; by eapply lookup_lt_Some. }
  split.
  - destruct (deliver_handles s e) as [c H]. destruct H; simpl_notify; auto.
  - split; [done|]. intros (msg & k & status & -> & Hm & Hc & Hlt).
    destruct (lookup_lt_is_Some_2 _ _ Hlt) as [block Hb].
    destruct (codeBlocks s !! S (currentBlockIndex s)) as [next|] eqn:Hnext.
    + by destruct (handles_deliver _ _ _ _ (H_idle_next s _ _ _ _ _ Hm Hc Hb Hnext)) as [-> _].
    + by destruct (handles_deliver _ _ _ _ (H_idle_last s _ _ _ _ Hm Hc Hb Hnext)) as [-> _].
Qed.

(** ** The promise settles once *)

Lemma settle_settled outcome p : p ≠ Pending → settle outcome p = p.
Proof. by destruct p. Qed.

Lemma promise_settled_deliver s e :
  promise s ≠ Pending → promise (deliver s e) = promise s.
Proof.
  intros Hp. destruct (deliver_handles s e) as [c H].
  destruct H; simpl_notify; try done; by apply settle_settled.
Qed.

Lemma promise_settled_deliver_all es s :
  promise s ≠ Pending → promise (deliver_all s es) = promise s.
Proof.
  revert s. induction es as [|e es IH]; intros s Hp; [done|].
  change (deliver_all s (e :: es)) with (deliver_all (deliver s e) es).
  rewrite IH; rewrite promise_settled_deliver; done.
Qed.

(** X3. Once the promise has been resolved or rejected no later signal
    changes it. In particular, after a transport error has arrived while
    the promise was pending the batch stays rejected with the transport
    error, whatever the kernel still answers. *)
Theorem promise_settles_once blocks es1 es2 :
  (promise (run blocks es1) ≠ Pending →
   promise (run blocks (es1 ++ es2)) = promise (run blocks es1))
  ∧ (promise (run blocks es1) = Pending →
     promise (run blocks (es1 ++ ErrorEvent :: es2)) = Rejected "WebSocket error").
Proof.
  unfold run. rewrite !deliver_all_app. split.
  - apply promise_settled_deliver_all.
  - intros Hp. change (deliver_all ?s (ErrorEvent :: es2))
      with (deliver_all (deliver s ErrorEvent) es2).
    assert (promise (deliver (deliver_all (onopen (executeNotebookBlocks blocks)).1 es1)
                       ErrorEvent) = Rejected "WebSocket error") as Hr.
    { destruct (handles_deliver _ _ _ _
                  (H_error (deliver_all (onopen (executeNotebookBlocks blocks)).1 es1)))
        as [-> _]. simpl_state. by rewrite Hp. }
    rewrite promise_settled_deliver_all; [done|]. by rewrite Hr.
Qed.

(** ** Error and close signals touch the promise alone *)

Ltac same_path C :=
  match goal with
  | |- forget_promise (deliver ?s ?e) = _ =>
      let H := fresh in
      eassert (handles s e _ _) as H by (eapply C; eassumption);
      apply handles_deliver in H as [-> _]
  end.

Lemma forget_promise_deliver s e :
  is_message e = true →
  forget_promise (deliver (forget_promise s) e) = forget_promise (deliver s e).
Proof.
  intros He. destruct (deliver_handles s e) as [c H].
  destruct H; try done;
    first [ same_path H_unmatched | same_path H_no_fragment | same_path H_quiet
          | same_path H_output | same_path H_output_notified | same_path H_output_throws
          | same_path H_kernel_error | same_path H_kernel_error_throws
          | same_path H_idle_throws | same_path H_idle_next | same_path H_idle_last ];
    try done.
  unfold notify. by destruct (truthy newOutput && onOutput).
Qed.

Lemma forget_promise_signal s e :
  is_message e = false → forget_promise (deliver s e) = forget_promise s.
Proof.
  intros He. destruct (deliver_handles s e) as [c H]. by destruct H.
Qed.

Lemma forget_promise_filter es s1 s2 :
  forget_promise s1 = forget_promise s2 →
  forget_promise (deliver_all s1 es) = forget_promise (deliver_all s2 (List.filter is_message es)).
Proof.
  revert s1 s2. induction es as [|e es IH]; intros s1 s2 Heq; [done|].
  change (deliver_all s1 (e :: es)) with (deliver_all (deliver s1 e) es).
  cbn [List.filter]. destruct (is_message e) eqn:He.
  - change (deliver_all s2 (e :: ?l)) with (deliver_all (deliver s2 e) l).
    apply IH. rewrite <-(forget_promise_deliver s1), <-(forget_promise_deliver s2) by done.
    by rewrite Heq.
  - apply IH. by rewrite forget_promise_signal.
Qed.

(** X4. Transport error and close signals write nothing but the promise:
    the cells, the stored results, the current index, the pending requests,
    the calls made on the socket and on [onOutput] are those of the same run
    with these signals taken out. Requests go on being sent after a
    transport error. *)
Theorem signals_touch_promise_only blocks es :
  let s := run blocks es in
  let s' := run blocks (List.filter is_message es) in
  codeBlocks s = codeBlocks s' ∧ results s = results s' ∧
  currentBlockIndex s = currentBlockIndex s' ∧ messageStatus s = messageStatus s' ∧
  ws s = ws s' ∧ notified s = notified s' ∧ issued s = issued s'.
Proof.
  intros s s'.
  assert (forget_promise s = forget_promise s') as Heq
    by (by apply forget_promise_filter).
  split_and!.
  - apply (f_equal codeBlocks) in Heq. exact Heq.
  - apply (f_equal results) in Heq. exact Heq.
  - apply (f_equal currentBlockIndex) in Heq. exact Heq.
  - apply (f_equal messageStatus) in Heq. exact Heq.
  - apply (f_equal ws) in Heq. exact Heq.
  - apply (f_equal notified) in Heq. exact Heq.
  - apply (f_equal issued) in Heq. exact Heq.
Qed.

(** ** After the last cell *)

Lemma settle_not_Pending rs p : settle (Resolved rs) p ≠ Pending.
Proof. by destruct p. Qed.

Lemma completed_settled_deliver blocks s e :
  Inv blocks s →
  (currentBlockIndex s = length blocks → (0 < length blocks)%nat → promise s ≠ Pending) →
  currentBlockIndex (deliver s e) = length blocks → (0 < length blocks)%nat →
  promise (deliver s e) ≠ Pending.
Proof.
  intros HI Hs. pose proof (same_cells_length _ _ (inv_cells _ _ HI)) as Hlen.
  destruct (deliver_handles s e) as [c H].
  destruct H; simpl_notify; intros Hi HN; try (by apply Hs);
    try (rewrite settle_settled; by apply Hs).
  - apply lookup_lt_Some in H2. lia.
  - apply settle_not_Pending.
Qed.

Lemma completed_settled blocks es :
  currentBlockIndex (run blocks es) = length blocks → (0 < length blocks)%nat →
  promise (run blocks es) ≠ Pending.
Proof.
  unfold run. generalize (Inv_open blocks).
  assert (currentBlockIndex (onopen (executeNotebookBlocks blocks)).1 = length blocks →
          (0 < length blocks)%nat →
          promise (onopen (executeNotebookBlocks blocks)).1 ≠ Pending) as H0.
  { unfold_handler. simpl. destruct blocks; simpl; intros; [lia|done]. }
  revert H0. generalize (onopen (executeNotebookBlocks blocks)).1.
  induction es as [|e es IH]; intros s Hs HI; [done|].
  change (deliver_all s (e :: es)) with (deliver_all (deliver s e) es).
  apply IH; [by eapply completed_settled_deliver|by apply Inv_deliver].
Qed.

Lemma frozen_deliver blocks s e :
  Inv blocks s → currentBlockIndex s = length blocks → promise s ≠ Pending →
  codeBlocks (deliver s e) = codeBlocks s ∧ results (deliver s e) = results s ∧
  currentBlockIndex (deliver s e) = currentBlockIndex s ∧
  promise (deliver s e) = promise s ∧ ws (deliver s e) = ws s ∧
  notified (deliver s e) = notified s ∧ issued (deliver s e) = issued s.
Proof.
  intros HI Hi Hp. pose proof (same_cells_length _ _ (inv_cells _ _ HI)) as Hlen.
  destruct (deliver_handles s e) as [c H].
  destruct H as [ | | | | | | |?????|?????????|msg k st out b ???? Hb|?????????
                 |msg k st out b ??? Hb|????????
                 |msg k st [_ [_ Hk]] (_ & _ & Hd) ?
                 |msg k st b next [_ [_ Hk]] (_ & _ & Hd) ? ?
                 |msg k st b [_ [_ Hk]] (_ & _ & Hd) ? ?];
    simpl_notify; try (by rewrite ?settle_settled).
  - apply lookup_lt_Some in Hb. lia.
  - apply lookup_lt_Some in Hb. lia.
  - destruct (inv_pending _ _ HI _ _ Hk Hd). lia.
  - destruct (inv_pending _ _ HI _ _ Hk Hd). lia.
Qed.

(** X5. Once the last cell of a non-empty batch has completed, the promise
    is settled and later signals change neither it nor the cells, the
    stored results, the index, the calls made on the socket (the last of
    which is the close) or the calls of [onOutput]: only the output buffers
    of the recorded requests can still grow. *)
Theorem frozen_after_completion blocks es es' :
  currentBlockIndex (run blocks es) = length blocks → blocks ≠ [] →
  let s := run blocks es in
  let s' := run blocks (es ++ es') in
  promise s ≠ Pending ∧ promise s' = promise s ∧
  codeBlocks s' = codeBlocks s ∧ results s' = results s ∧
  currentBlockIndex s' = currentBlockIndex s ∧
  ws s' = ws s ∧ last (ws s) = Some WsClose ∧
  notified s' = notified s.
Proof.
  intros Hi Hne s s'.
  assert (0 < length blocks)%nat as HN by (destruct blocks; [done|simpl; lia]).
  pose proof (completed_settled blocks es Hi HN) as Hp. fold s in Hp, Hi.
  pose proof (Inv_run blocks es) as HI. fold s in HI.
  assert (promise s' = promise s ∧ codeBlocks s' = codeBlocks s ∧
          results s' = results s ∧ currentBlockIndex s' = currentBlockIndex s ∧
          ws s' = ws s ∧ notified s' = notified s) as Hfrozen.
  { unfold s', run. rewrite deliver_all_app. fold (run blocks es). fold s.
    clearbody s. clear s'. revert s Hi Hp HI.
    induction es' as [|e es' IH]; intros s Hi Hp HI; [done|].
    change (deliver_all s (e :: es')) with (deliver_all (deliver s e) es').
    destruct (frozen_deliver blocks s e HI Hi Hp) as (E1 & E2 & E3 & E4 & E5 & E6 & _).
    destruct (IH (deliver s e)) as (F1 & F2 & F3 & F4 & F5 & F6);
      [congruence|congruence|by apply Inv_deliver|].
    split_and!; congruence. }
  destruct Hfrozen as (F1 & F2 & F3 & F4 & F5 & F6).
  split_and!; try done.
  rewrite (inv_ws _ _ HI). rewrite bool_decide_eq_true_2 by done.
  rewrite app_comm_cons. apply last_snoc.
Qed.

(** ** The pending-request map *)

#[local] Set Warnings "-clear-no-such-hyp".

Lemma size_list_to_set_le (l : list string) :
  (size (list_to_set l : gset string) ≤ length l)%nat.
Proof.
  induction l as [|x l IH]; [done|].
  rewrite list_to_set_cons. simpl.
  destruct (decide (x ∈ (list_to_set l : gset string))) as [Hin|Hnin].
  - replace ({[x]} ∪ list_to_set l : gset string) with (list_to_set l : gset string)
      by set_solver. lia.
  - rewrite size_union by set_solver. rewrite size_singleton. lia.
Qed.

Lemma pending_keys_deliver s e :
  dom (messageStatus s) = list_to_set (msgId <$> seq 0 (issued s)) →
  dom (messageStatus (deliver s e)) = list_to_set (msgId <$> seq 0 (issued (deliver s e))).
Proof.
  intros Hdom. destruct (deliver_handles s e) as [c H].
  destruct H as [ | | | | | | |msg k st [_ [_ Hk]] _
                 |msg k st out [_ [_ Hk]] _ _ _
                 |msg k st out b [_ [_ Hk]] _ _ _ _
                 |msg k st out [_ [_ Hk]] _ _ _ _
                 |msg k st out b [_ [_ Hk]] _ _ Hb
                 |msg k st out [_ [_ Hk]] _ _ _
                 |msg k st [_ [_ Hk]] Hcomp Hb
                 |msg k st b next [_ [_ Hk]] Hcomp Hb Hnext
                 |msg k st b [_ [_ Hk]] Hcomp Hb Hnext];
    simpl_notify; try done.
  all: apply (elem_of_dom_2 (D:=gset string)) in Hk.
  all: rewrite ?dom_insert_L, ?seq_S, ?fmap_app, ?list_to_set_app_L; simpl;
    rewrite <-?Hdom; set_solver.
Qed.

(** X6. The pending-request map holds exactly the ids of the requests
    built so far: an entry is never removed, and there are never more
    entries than cells in the batch. *)
Theorem pending_requests_recorded blocks es e :
  let s := run blocks es in
  dom (messageStatus s) = list_to_set (msgId <$> seq 0 (issued s))
  ∧ (size (messageStatus s) ≤ length blocks)%nat
  ∧ dom (messageStatus s) ⊆ dom (messageStatus (deliver s e)).
Proof.
  intros s.
  assert (dom (messageStatus s) = list_to_set (msgId <$> seq 0 (issued s))) as Hdom.
  { unfold s, run.
    assert (dom (messageStatus (onopen (executeNotebookBlocks blocks)).1)
            = list_to_set (msgId <$> seq 0 (issued (onopen (executeNotebookBlocks blocks)).1)))
      as H0.
    { unfold_handler. simpl. destruct blocks; simpl.
      - by rewrite dom_empty_L.
      - rewrite dom_insert_L, dom_empty_L. set_solver. }
    revert H0. generalize (onopen (executeNotebookBlocks blocks)).1.
    induction es as [|e' es IH]; intros s0 H0; [done|].
    change (deliver_all s0 (e' :: es)) with (deliver_all (deliver s0 e') es).
    by apply IH, pending_keys_deliver. }
  split_and!.
  - done.
  - rewrite <-size_dom, Hdom.
    etrans; [apply size_list_to_set_le|].
    rewrite length_fmap, length_seq. unfold s.
    rewrite (inv_issued _ _ (Inv_run blocks es)). lia.
  - rewrite (pending_keys_deliver s e Hdom), Hdom.
    destruct (deliver_handles s e) as [c H]; destruct H; simpl_notify; try done.
    rewrite seq_S, fmap_app, list_to_set_app_L. set_solver.
Qed.

#[local] Set Warnings "+clear-no-such-hyp".


(** ** Streamed output *)

Lemma string_app_nil_r (a : string) : a +:+ "" = a.
Proof.
  induction a as [|c a IH]; [done|].
  change (String c (a +:+ "") = String c a). by rewrite IH.
Qed.

Lemma string_app_assoc (a b c : string) : (a +:+ b) +:+ c = a +:+ b +:+ c.
Proof.
  induction a as [|x a IH]; [done|].
  change (String x ((a +:+ b) +:+ c) = String x (a +:+ b +:+ c)). by rewrite IH.
Qed.

Lemma append_output_empty st : append_output st "" = st.
Proof. destruct st as [d o]. unfold append_output. cbn. by rewrite string_app_nil_r. Qed.

Lemma append_output_append st a b :
  append_output (append_output st a) b = append_output st (a +:+ b).
Proof. unfold append_output. cbn. by rewrite string_app_assoc. Qed.

Lemma deliver_stream s k st t block :
  truthy k = true → messageStatus s !! k = Some st →
  codeBlocks s !! currentBlockIndex s = Some block →
  deliver s (MessageEvent (Json (inbound "stream" k (stream_content t))))
  = set_status k (append_output st t) (notify (block_id block) t
      (set_status k (append_output st t) s)).
Proof.
  intros Hk Hst Hb.
  apply (deliver_output s (inbound "stream" k (stream_content t)) k st t block);
    [done|by left| |done].
  simpl. unfold truthy. by destruct t.
Qed.

Lemma deliver_streams texts s k st block :
  truthy k = true → messageStatus s !! k = Some st →
  codeBlocks s !! currentBlockIndex s = Some block →
  let s' := deliver_all s (stream_events k texts) in
  messageStatus s' = <[k := append_output st (concat_texts texts)]> (messageStatus s) ∧
  notified s'
  = (notified s ++ if onOutput then (λ t, (block_id block, t)) <$> List.filter truthy texts
                   else [])%list ∧
  codeBlocks s' = codeBlocks s ∧ results s' = results s ∧
  currentBlockIndex s' = currentBlockIndex s ∧ promise s' = promise s ∧
  ws s' = ws s ∧ issued s' = issued s.
Proof.
  revert s st. induction texts as [|t texts IH]; intros s st Hk Hst Hb; cbn zeta.
  - simpl. rewrite append_output_empty, insert_id by done.
    split_and!; try done. destruct onOutput; by rewrite app_nil_r.
  - change (deliver_all s (stream_events k (t :: texts)))
      with (deliver_all
              (deliver s (MessageEvent (Json (inbound "stream" k (stream_content t)))))
              (stream_events k texts)).
    rewrite (deliver_stream s k st t block Hk Hst Hb).
    set (s1 := set_status k (append_output st t)
                 (notify (block_id block) t (set_status k (append_output st t) s))).
    destruct (IH s1 (append_output st t)) as (E1 & E2 & E3 & E4 & E5 & E6 & E7 & E8);
      [done|unfold s1; simpl_state; apply lookup_insert_eq
      |unfold s1; by simpl_notify|].
    rewrite E1, E2, E3, E4, E5, E6, E7, E8. unfold s1. simpl_notify.
    rewrite !insert_insert_eq, append_output_append.
    split_and!; try done.
    rewrite <-app_assoc. f_equal. cbn [List.filter].
    destruct (truthy t), onOutput; simpl; try done.
Qed.

(** X7. While a cell is current, [stream] messages for a recorded request
    accumulate in arrival order in that request's buffer, and [onOutput],
    when supplied, is called once for each non-empty text, in order, with
    the current cell's id; nothing else is written. When the request is not
    done, the idle [status] that follows stores the whole buffer under the
    cell's id and moves to the next cell. *)
Theorem streams_accumulate texts s k status block :
  truthy k = true → messageStatus s !! k = Some status →
  codeBlocks s !! currentBlockIndex s = Some block →
  let s1 := deliver_all s (stream_events k texts) in
  let s2 := deliver s1 (MessageEvent (Json (idle_status k))) in
  messageStatus s1 !! k = Some (append_output status (concat_texts texts)) ∧
  (∀ k', k' ≠ k → messageStatus s1 !! k' = messageStatus s !! k') ∧
  notified s1
  = (notified s ++ if onOutput then (λ t, (block_id block, t)) <$> List.filter truthy texts
                   else [])%list ∧
  codeBlocks s1 = codeBlocks s ∧ results s1 = results s ∧
  currentBlockIndex s1 = currentBlockIndex s ∧ promise s1 = promise s ∧
  ws s1 = ws s ∧
  (done status = false →
   results s2 !! block_id block = Some (output status +:+ concat_texts texts) ∧
   currentBlockIndex s2 = S (currentBlockIndex s) ∧
   notified s2 = notified s1).
Proof.
  intros Hk Hst Hb s1 s2.
  destruct (deliver_streams texts s k status block Hk Hst Hb)
    as (E1 & E2 & E3 & E4 & E5 & E6 & E7 & E8). fold s1 in E1, E2, E3, E4, E5, E6, E7, E8.
  split_and!; try done.
  - rewrite E1. apply lookup_insert_eq.
  - intros k' Hne. rewrite E1. by apply lookup_insert_ne.
  - intros Hd.
    assert (matched s1 (idle_status k) k (append_output status (concat_texts texts))) as Hm
      by (apply matched_idle; [done|]; rewrite E1; apply lookup_insert_eq).
    pose proof (completes_idle k (append_output status (concat_texts texts)) Hd) as Hc.
    assert (codeBlocks s1 !! currentBlockIndex s1 = Some block) as Hb1 by (by rewrite E3, E5).
    destruct (codeBlocks s1 !! S (currentBlockIndex s1)) as [next|] eqn:Hnext.
    + destruct (handles_deliver _ _ _ _ (H_idle_next s1 _ _ _ _ _ Hm Hc Hb1 Hnext))
        as [Hs2 _]. fold s2 in Hs2. cbn zeta in Hs2. rewrite Hs2. simpl_state.
      rewrite E5. split_and!; [apply lookup_insert_eq|done..].
    + destruct (handles_deliver _ _ _ _ (H_idle_last s1 _ _ _ _ Hm Hc Hb1 Hnext))
        as [Hs2 _]. fold s2 in Hs2. cbn zeta in Hs2. rewrite Hs2. simpl_state.
      rewrite E5. split_and!; [apply lookup_insert_eq|done..].
Qed.

(** ** Attribution by index *)

Lemma Inv_done_unless_current blocks s k st :
  Inv blocks s → messageStatus s !! k = Some st →
  k ≠ msgId (currentBlockIndex s) → done st = true.
Proof.
  intros HI Hk Hne. destruct (done st) eqn:Hd; [done|].
  by destruct (inv_pending _ _ HI _ _ Hk Hd) as [_ ->].
Qed.

(** X8. Output is attributed by index, not by request. A [stream],
    [execute_result] or [display_data] message that answers an earlier
    request of the session (one that is not the current cell's) is appended
    to that finished request's buffer only: the stored results and the
    buffer of the current request are untouched, so the text reaches no
    result. Yet [onOutput], when supplied, is called with the id of the
    current cell. *)
Theorem late_output_attribution blocks es msg k status newOutput block :
  let s := run blocks es in
  let s' := deliver s (MessageEvent (Json msg)) in
  matched s msg k status →
  k ≠ msgId (currentBlockIndex s) →
  kind_of (header_msg_type msg) = KStream ∨ kind_of (header_msg_type msg) = KResult →
  new_output (kind_of (header_msg_type msg)) (in_content msg) = Some newOutput →
  codeBlocks s !! currentBlockIndex s = Some block →
  done status = true ∧
  messageStatus s' !! k = Some (append_output status newOutput) ∧
  messageStatus s' !! msgId (currentBlockIndex s)
  = messageStatus s !! msgId (currentBlockIndex s) ∧
  results s' = results s ∧ codeBlocks s' = codeBlocks s ∧
  currentBlockIndex s' = currentBlockIndex s ∧
  notified s'
  = (notified s ++ if truthy newOutput && onOutput then [(block_id block, newOutput)]
                   else [])%list.
Proof.
  intros s s' Hm Hne Hkind Hf Hb.
  pose proof (Inv_run blocks es) as HI. fold s in HI.
  unfold s'. rewrite (deliver_output s msg k status newOutput block Hm Hkind Hf Hb).
  destruct Hm as (_ & _ & Hk). simpl_notify.
  split_and!; try done.
  - by eapply Inv_done_unless_current.
  - rewrite insert_insert_eq. apply lookup_insert_eq.
  - by rewrite !lookup_insert_ne.
Qed.


(** ** Messages that change nothing *)


(** X11. A [status] message handled twice in a row has the effect of
    handling it once: the second delivery finds the request done (or finds
    no request) and changes nothing. The index moves once for each
    request. *)
Theorem status_message_idempotent s msg :
  kind_of (header_msg_type msg) = KStatus →
  deliver (deliver s (MessageEvent (Json msg))) (MessageEvent (Json msg))
  = deliver s (MessageEvent (Json msg)).
Proof.
  intros Hkind.
  assert (∀ k st s1,
            parent_msg_id msg = Some k → truthy k = true →
            is_Some (in_content msg) →
            messageStatus s1 !! k = Some st → done st = true →
            deliver s1 (MessageEvent (Json msg)) = s1) as Hdone.
  { intros k st s1 Hp Hk Hc Hst Hd.
    rewrite <-(set_status_id s1 k st) at 2 by done.
    eapply handles_deliver, H_quiet; [done|]. right. split_and!; [done..|].
    intros (_ & _ & Hd'). congruence. }
  destruct (deliver_handles s (MessageEvent (Json msg))) as [c H].
  remember (deliver s (MessageEvent (Json msg))) as s1 eqn:Hs1.
  remember (MessageEvent (Json msg)) as e eqn:He.
  destruct H; simplify_eq; try (by rewrite <-Hs1).
  - (* no effect the first time *)
    destruct H0 as [Hk|(_ & Hc & Hno)]; [congruence|].
    destruct H as (Hp & Hk & Hst).
    destruct (done status) eqn:Hd.
    + eapply (Hdone k status); try done. apply lookup_insert_eq.
    + rewrite set_status_id by done.
      rewrite <-(set_status_id s k status) at 2 by done.
      eapply handles_deliver, H_quiet; [done|]. by right.
  - destruct H0; congruence.
  - destruct H0; congruence.
  - destruct H0; congruence.
  - congruence.
  - congruence.
  - destruct H as (Hp & Hk & Hst). destruct H0 as (_ & (c & Hc & _) & _).
    eapply (Hdone k (mark_done status)); try done. apply lookup_insert_eq.
  - destruct H as (Hp & Hk & Hst). destruct H0 as (_ & (c & Hc & _) & _).
    eapply (Hdone k (mark_done status)); try done. apply lookup_insert_eq.
  - destruct H as (Hp & Hk & Hst). destruct H0 as (_ & (c & Hc & _) & _).
    eapply (Hdone k (mark_done status)); try done. apply lookup_insert_eq.
Qed.

(** ** When the message handler throws *)




(** ** Calls of [onOutput] *)

Lemma notified_deliver s e :
  notified (deliver s e) = notified s ∨
  ∃ block newOutput,
    codeBlocks s !! currentBlockIndex s = Some block ∧
    truthy newOutput && onOutput = true ∧
    notified (deliver s e) = (notified s ++ [(block_id block, newOutput)])%list.
Proof.
  destruct (deliver_handles s e) as [c H].
  destruct H; simpl_notify; try (by left).
  - right. by exists block, newOutput.
  - destruct (truthy newOutput && onOutput) eqn:Hn.
    + right. by exists block, newOutput.
    + left. by rewrite app_nil_r.
Qed.

(** X13. [onOutput] is never called when it was not supplied. When it was,
    every call carries a non-empty fragment and the id of a cell of the
    batch, and a delivery makes at most one call. *)
Theorem onOutput_calls blocks es e :
  let s := run blocks es in
  (onOutput = false → notified s = [])
  ∧ (∀ blockId newOutput,
       (blockId, newOutput) ∈ notified s →
       truthy newOutput = true ∧ blockId ∈ block_id <$> blocks)
  ∧ (length (notified (deliver s e)) ≤ S (length (notified s)))%nat.
Proof.
  intros s.
  assert (∀ s0, Inv blocks s0 → notified s0 = [] →
            (onOutput = false → notified (deliver_all s0 es) = []) ∧
            (∀ blockId newOutput,
               (blockId, newOutput) ∈ notified (deliver_all s0 es) →
               truthy newOutput = true ∧ blockId ∈ block_id <$> blocks)) as Hgen.
  { intros s0 HI0 H0.
    assert ((onOutput = false → notified s0 = []) ∧
            (∀ blockId newOutput,
               (blockId, newOutput) ∈ notified s0 →
               truthy newOutput = true ∧ blockId ∈ block_id <$> blocks)) as Hs0
      by (rewrite H0; split; [done|]; intros ?? Hin; by apply elem_of_nil in Hin).
    clear H0. revert s0 HI0 Hs0.
    induction es as [|e' es' IH]; intros s0 HI0 Hs0; [done|].
    change (deliver_all s0 (e' :: es')) with (deliver_all (deliver s0 e') es').
    apply IH; [by apply Inv_deliver|].
    destruct Hs0 as [Hoff Hin0].
    destruct (notified_deliver s0 e') as [->|(block & out & Hb & Hn & ->)]; [done|].
    apply andb_true_iff in Hn as [Ht Ho]. split; [congruence|].
    intros blockId newOutput [Hin|Hin%list_elem_of_singleton]%elem_of_app; [auto|].
    injection Hin as -> ->. split; [done|].
    destruct (inv_cells _ _ HI0) as [<- _].
    apply list_elem_of_fmap. exists block. split; [done|].
    by eapply list_elem_of_lookup_2. }
  destruct (Hgen (onopen (executeNotebookBlocks blocks)).1 (Inv_open blocks)) as [H1 H2].
  { unfold_handler. simpl. by destruct blocks. }
  split_and!; [done|done|].
  destruct (notified_deliver s e) as [->|(block & out & _ & _ & ->)]; [lia|].
  rewrite length_app. simpl. lia.
Qed.

(** ** The resolved results *)

(** X14. What the promise resolves with has one entry for each cell of the
    batch, in the order of the batch and with the cells' ids. The output of
    an entry is looked up by id: two cells with the same id are reported
    with the same output. *)
Theorem resolved_results_shape blocks es rs :
  promise (run blocks es) = Resolved rs →
  result_id <$> rs = block_id <$> blocks
  ∧ length rs = length blocks
  ∧ (∀ i j ri rj, rs !! i = Some ri → rs !! j = Some rj →
                  result_id ri = result_id rj → result_output ri = result_output rj).
Proof.
  intros Hrs. pose proof (Inv_run blocks es) as HI.
  destruct (inv_resolved _ _ HI rs Hrs) as [_ ->].
  destruct (inv_cells _ _ HI) as [Hids _].
  assert (result_id <$> collect (codeBlocks (run blocks es)) (results (run blocks es))
          = block_id <$> blocks) as Hshape.
  { rewrite <-Hids. unfold collect. rewrite <-list_fmap_compose. done. }
  split_and!.
  - done.
  - by rewrite <-(length_fmap result_id), Hshape, length_fmap.
  - intros i j ri rj (bi & _ & Hi & _ & Hoi)%collect_lookup
      (bj & _ & Hj & _ & Hoj)%collect_lookup Heq.
    rewrite Hoi, Hoj. congruence.
Qed.

Lemma single_cell_result block es rs :
  promise (run [block] es) = Resolved rs →
  ∃ r, rs = [r] ∧ result_id r = block_id block ∧
       (result_hasError r = block_hasError block ∨ result_hasError r = Some true).
Proof.
  intros Hrs. pose proof (Inv_run [block] es) as HI.
  destruct (inv_resolved _ _ HI rs Hrs) as [_ ->].
  pose proof (same_cells_length _ _ (inv_cells _ _ HI)) as Hlen.
  destruct (codeBlocks (run [block] es)) as [|b [|??]] eqn:Hcb; simplify_eq/=.
  eexists. split; [done|]. simpl.
  destruct (inv_cells _ _ HI) as [Hid _]. rewrite Hcb in Hid. simplify_eq/=.
  split; [done|].
  destruct (hasError_deliver_all es (onopen (executeNotebookBlocks [block])).1 0)
    as [Heq|[Ht _]]; unfold hasError_at in *; fold (run [block] es) in *.
  - left. rewrite Hcb in Heq. by simplify_eq/=.
  - right. rewrite Hcb in Ht. by simplify_eq/=.
Qed.

End ExecuteNotebookBlocks.

(** * The lifecycle client *)

(** C8, as the code has it. On a response that is not 2xx each of the
    three calls rejects: [createKernel] with a message that carries the
    status code, the status text and, when it is not empty, the body;
    [deleteKernel] and [listKernels] with a message that carries the status
    text alone. On a 2xx response whose body is not JSON, [createKernel]
    rejects with the invalid-response-format error, [listKernels] rejects
    with the parser's own error, and [deleteKernel], which does not read
    the body, fulfils. On a 2xx response with a JSON body [listKernels]
    returns the parsed value and [createKernel] its [id]. *)
Theorem C8_lifecycle_errors serverConfig kernelName kernelId r :
  let fetch := λ _ : Request, Normal r in
  (resp_ok r = false →
   createKernel fetch serverConfig kernelName
   = Throw (Error ("Failed to create kernel: " +:+ pretty (resp_status r) +:+ " "
                     +:+ resp_statusText r
                     +:+ (if truthy (resp_text r) then " - " +:+ resp_text r else "")))
   ∧ deleteKernel fetch serverConfig kernelId
     = Throw (Error ("Failed to delete kernel: " +:+ resp_statusText r))
   ∧ listKernels fetch serverConfig
     = Throw (Error ("Failed to list kernels: " +:+ resp_statusText r)))
  ∧ (resp_ok r = true → resp_json r = None →
     createKernel fetch serverConfig kernelName
     = Throw (Error "Invalid response format from Jupyter server")
     ∧ listKernels fetch serverConfig = Throw SyntaxError
     ∧ deleteKernel fetch serverConfig kernelId = Normal tt)
  ∧ (∀ v, resp_ok r = true → resp_json r = Some v →
     listKernels fetch serverConfig = Normal v
     ∧ createKernel fetch serverConfig kernelName
       = try_catch (get_id v)
           (λ _, Throw (Error "Invalid response format from Jupyter server"))).
Proof.
  intros fetch. unfold createKernel, deleteKernel, listKernels, fetch, parse_body.
  cbn [mbind completion_bind mret completion_ret try_catch].
  split_and!.
  - intros ->. by cbn.
  - intros -> ->. by cbn.
  - intros v -> ->. cbn. split; [done|]. by destruct (get_id v).
Qed.

Lemma C8_witness :
  resp_ok response_500 = false ∧
  resp_ok response_200_not_json = true ∧ resp_json response_200_not_json = None ∧
  createKernel (λ _, Normal response_500) sample_server "python3"
  = Throw (Error "Failed to create kernel: 500 Internal Server Error - kernel busy") ∧
  createKernel (λ _, Normal response_200_not_json) sample_server "python3"
  = Throw (Error "Invalid response format from Jupyter server").
Proof.
  assert (resp_ok response_500 = false) as H1 by reflexivity.
  assert (resp_ok response_200_not_json = true) as H2 by reflexivity.
  assert (resp_json response_200_not_json = None) as H3 by reflexivity.
  split_and!; [exact H1|exact H2|exact H3| |].
  - exact (proj1 (proj1 (C8_lifecycle_errors sample_server "python3" "k1" response_500) H1)).
  - exact (proj1 (proj1 (proj2 (C8_lifecycle_errors sample_server "python3" "k1"
                                  response_200_not_json)) H2 H3)).
Defined.

Lemma C8_counterexample :
  resp_ok response_500 = false ∧
  deleteKernel (λ _, Normal response_500) sample_server "k1"
  = Throw (Error "Failed to delete kernel: Internal Server Error") ∧
  includes "Failed to delete kernel: Internal Server Error" "500" = false ∧
  includes "Failed to delete kernel: Internal Server Error" "kernel busy" = false ∧
  listKernels (λ _, Normal response_500) sample_server
  = Throw (Error "Failed to list kernels: Internal Server Error") ∧
  listKernels (λ _, Normal response_200_not_json) sample_server
  ≠ Throw (Error "Invalid response format from Jupyter server").
Proof. split_and!; done. Qed.

(** * The claims at sample inputs *)

(** The cell that [executeCode] builds has no [hasError]: on the three
    messages of C2 its result carries an undefined flag. *)
Example executeCode_accumulation :
  promise (run sample_stamp sample_server "k1" true (executeCode_blocks "1+1")
             [MessageEvent (Json (inbound "stream" "msg-0" (stream_content "a")));
              MessageEvent (Json (inbound "execute_result" "msg-0" (plain_content "b")));
              MessageEvent (Json (idle_status "msg-0"))])
  = Resolved [{| result_id := "single"; result_hasError := None;
                 result_output := "a" +:+ "b" +:+ nl |}].
Proof. by vm_compute. Qed.

Lemma sample_stamp_fresh i : sample_stamp (S i) ≠ sample_stamp i.
Proof. unfold sample_stamp. intros Heq%(inj pretty). lia. Qed.

Lemma C1_witness :
  [cell_a; cell_b] ≠ [] ∧
  sent (ws (run sample_stamp sample_server "k1" true [cell_a; cell_b]
              [MessageEvent (Json (inbound "stream" "msg-0" (stream_content "1")));
               MessageEvent (Json (idle_status "msg-0"))]))
  = [request sample_stamp [cell_a; cell_b] 0; request sample_stamp [cell_a; cell_b] 1] ∧
  ∃ rs, promise (run sample_stamp sample_server "k1" true [cell_a; cell_b]
                   (idle_replies sample_stamp 2)) = Resolved rs.
Proof.
  assert ([cell_a; cell_b] ≠ []) as H by done.
  split; [exact H|].
  destruct (C1_requests_one_at_a_time sample_stamp sample_server "k1" true
              [cell_a; cell_b]
              [MessageEvent (Json (inbound "stream" "msg-0" (stream_content "1")));
               MessageEvent (Json (idle_status "msg-0"))] H)
    as (H1 & _ & _ & _ & _ & _ & H7).
  split; [exact H1|].
  destruct (H7 sample_stamp_fresh) as (rs & Hrs & _). by exists rs.
Defined.

Lemma C2_counterexample :
  promise (run sample_stamp sample_server "k1" true [cell_b]
             [MessageEvent (Json (inbound "stream" "msg-0" (stream_content "a")));
              MessageEvent (Json (inbound "execute_result" "msg-0" (plain_content "b")));
              MessageEvent (Json (idle_status "msg-0"))])
  = Resolved [{| result_id := "cell-b"; result_hasError := Some true;
                 result_output := "a" +:+ "b" +:+ nl |}]
  ∧ ¬ ∃ r, promise (run sample_stamp sample_server "k1" true [cell_b]
                      [MessageEvent (Json (inbound "stream" "msg-0" (stream_content "a")));
                       MessageEvent (Json (inbound "execute_result" "msg-0"
                                             (plain_content "b")));
                       MessageEvent (Json (idle_status "msg-0"))])
             = Resolved [r] ∧ result_hasError r = Some false.
Proof.
  split; [by vm_compute|].
  intros (r & Hr & Hf). vm_compute in Hr. injection Hr as <-. discriminate Hf.
Qed.

Lemma C3_witness :
  (currentBlockIndex (run sample_stamp sample_server "k1" true [cell_a; cell_b] [])
   < length [cell_a; cell_b])%nat ∧
  traceback value_error = Some ["line1"; "line2"] ∧
  hasError_at
    (deliver sample_stamp true
       (run sample_stamp sample_server "k1" true [cell_a; cell_b] [])
       (MessageEvent (Json (inbound "error" "msg-0" value_error)))) 0
  = Some (Some true) ∧
  results
    (deliver sample_stamp true
       (deliver sample_stamp true
          (run sample_stamp sample_server "k1" true [cell_a; cell_b] [])
          (MessageEvent (Json (inbound "error" "msg-0" value_error))))
       (MessageEvent (Json (idle_status "msg-0")))) !! "cell-a"
  = Some ("Error: ValueError" +:+ nl +:+ "bad" +:+ nl +:+ "line1" +:+ nl +:+ "line2") ∧
  ∀ es' rs,
    promise (deliver_all sample_stamp true
               (deliver sample_stamp true
                  (run sample_stamp sample_server "k1" true [cell_a; cell_b] [])
                  (MessageEvent (Json (inbound "error" "msg-0" value_error)))) es')
    = Resolved rs →
    ∃ r, rs !! 0 = Some r ∧ result_hasError r = Some true.
Proof.
  assert (currentBlockIndex (run sample_stamp sample_server "k1" true [cell_a; cell_b] [])
          < length [cell_a; cell_b])%nat as H1 by (vm_compute; lia).
  assert (traceback value_error = Some ["line1"; "line2"]) as H2 by reflexivity.
  split; [exact H1|]. split; [exact H2|].
  destruct (C3_kernel_error sample_stamp sample_server "k1" true [cell_a; cell_b] []
              value_error ["line1"; "line2"] H1 H2)
    as (status & block & Hst & Hb & H3 & _ & _ & _ & _ & _ & _ & Hidle & H4 & _).
  split; [exact H3|].
  vm_compute in Hst. injection Hst as <-.
  vm_compute in Hb. injection Hb as <-.
  destruct (Hidle eq_refl) as (_ & Hres & _).
  split; [exact Hres|exact H4].
Defined.

Lemma C4_witness :
  match parent_msg_id (idle_status "msg-7") with
  | None => True
  | Some k =>
      messageStatus (run sample_stamp sample_server "k1" true [cell_a] []) !! k = None
  end ∧
  onmessage sample_stamp true (Json (idle_status "msg-7"))
    (run sample_stamp sample_server "k1" true [cell_a] [])
  = (run sample_stamp sample_server "k1" true [cell_a] [], Normal tt).
Proof.
  assert (match parent_msg_id (idle_status "msg-7") with
          | None => True
          | Some k =>
              messageStatus (run sample_stamp sample_server "k1" true [cell_a] []) !! k
              = None
          end) as H by (vm_compute; reflexivity).
  split; [exact H|].
  exact (C4_unmatched_message_ignored sample_stamp true
           (run sample_stamp sample_server "k1" true [cell_a] [])
           (idle_status "msg-7") H).
Defined.

Lemma C5_witness :
  (currentBlockIndex (run sample_stamp sample_server "k1" true [cell_a] [])
   < length [cell_a])%nat ∧
  promise (run sample_stamp sample_server "k1" true [cell_a] []) = Pending ∧
  promise (deliver sample_stamp true
             (run sample_stamp sample_server "k1" true [cell_a] []) CloseEvent)
  = Rejected "WebSocket closed before execution completed".
Proof.
  assert (currentBlockIndex (run sample_stamp sample_server "k1" true [cell_a] [])
          < length [cell_a])%nat as H1 by (vm_compute; lia).
  assert (promise (run sample_stamp sample_server "k1" true [cell_a] []) = Pending)
    as H2 by reflexivity.
  split; [exact H1|]. split; [exact H2|].
  exact (proj1 (proj1 (C5_close_signal sample_stamp sample_server "k1" true [cell_a] [])
                  H1) H2).
Defined.

Lemma C5_counterexample :
  (currentBlockIndex (run sample_stamp sample_server "k1" true [cell_a] [ErrorEvent])
   < length [cell_a])%nat ∧
  promise (run sample_stamp sample_server "k1" true [cell_a] [ErrorEvent; CloseEvent])
  = Rejected "WebSocket error" ∧
  promise (run sample_stamp sample_server "k1" true [cell_a] [ErrorEvent; CloseEvent])
  ≠ Rejected "WebSocket closed before execution completed".
Proof. split_and!; [vm_compute; lia|done|done]. Qed.

Lemma C6_counterexample :
  promise (run sample_stamp sample_server "k1" true []
             [MessageEvent (Json (idle_status "msg-0")); CloseEvent]) = Pending ∧
  promise (run sample_stamp sample_server "k1" true []
             [MessageEvent (Json (idle_status "msg-0")); CloseEvent]) ≠ Resolved [] ∧
  ws (executeNotebookBlocks sample_server "k1" [])
  = [WsNew "ws://localhost:8888/api/kernels/k1/channels"] ∧
  ws (executeNotebookBlocks sample_server "k1" []) ≠ [].
Proof. split_and!; done. Qed.

Lemma C7_counterexample :
  (onmessage sample_stamp true Malformed
     (run sample_stamp sample_server "k1" true [cell_a] [])).2
  = Throw SyntaxError ∧
  (onmessage sample_stamp true Malformed
     (run sample_stamp sample_server "k1" true [cell_a] [])).2
  ≠ Normal tt.
Proof. split; done. Qed.

Lemma C9_witness :
  (length (codeBlocks (run sample_stamp sample_server "k1" true [cell_a]
                         [MessageEvent (Json (idle_status "msg-0"))]))
   ≤ currentBlockIndex (run sample_stamp sample_server "k1" true [cell_a]
                          [MessageEvent (Json (idle_status "msg-0"))]))%nat ∧
  matched (run sample_stamp sample_server "k1" true [cell_a]
             [MessageEvent (Json (idle_status "msg-0"))])
    (inbound "stream" "msg-0" (stream_content "late")) "msg-0"
    {| done := true; output := "" |} ∧
  (onmessage sample_stamp true (Json (inbound "stream" "msg-0" (stream_content "late")))
     (run sample_stamp sample_server "k1" true [cell_a]
        [MessageEvent (Json (idle_status "msg-0"))])).2
  = Throw TypeError.
Proof.
  assert (length (codeBlocks (run sample_stamp sample_server "k1" true [cell_a]
                                [MessageEvent (Json (idle_status "msg-0"))]))
          ≤ currentBlockIndex (run sample_stamp sample_server "k1" true [cell_a]
                                 [MessageEvent (Json (idle_status "msg-0"))]))%nat
    as H1 by (vm_compute; lia).
  assert (matched (run sample_stamp sample_server "k1" true [cell_a]
                     [MessageEvent (Json (idle_status "msg-0"))])
            (inbound "stream" "msg-0" (stream_content "late")) "msg-0"
            {| done := true; output := "" |}) as H2
    by (split_and!; vm_compute; reflexivity).
  split; [exact H1|]. split; [exact H2|].
  destruct (C9_late_message_throws sample_stamp true _ _ _ _ "late" H1 H2
              eq_refl eq_refl eq_refl) as [_ ->].
  reflexivity.
Defined.

Lemma C10_witness :
  promise (run sample_stamp sample_server "k1" true [cell_b]
             [MessageEvent (Json (inbound "stream" "msg-0" (stream_content "2")));
              MessageEvent (Json (idle_status "msg-0"))])
  = Resolved [{| result_id := "cell-b"; result_hasError := Some true;
                 result_output := "2" |}] ∧
  block_hasError cell_b = Some true ∧
  result_hasError {| result_id := "cell-b"; result_hasError := Some true;
                     result_output := "2" |} = Some true.
Proof.
  assert (promise (run sample_stamp sample_server "k1" true [cell_b]
                     [MessageEvent (Json (inbound "stream" "msg-0" (stream_content "2")));
                      MessageEvent (Json (idle_status "msg-0"))])
          = Resolved [{| result_id := "cell-b"; result_hasError := Some true;
                         result_output := "2" |}]) as H1 by (vm_compute; reflexivity).
  assert (block_hasError cell_b = Some true) as H2 by reflexivity.
  split; [exact H1|]. split; [exact H2|].
  exact (proj2 (proj2 (proj2
           (C10_hasError_never_cleared sample_stamp sample_server "k1" true [cell_b] _ _
              0 cell_b _ H1 eq_refl eq_refl))) H2).
Defined.

(** * Further properties outside the session *)

(** ** [executeCode] *)

(** X15. [executeCode] runs the batch of its one synthetic cell with a
    callback that is always supplied and returns [results[0]]. When that
    batch resolves it has exactly this one result, with id single; its
    [hasError] is undefined or true, never false. *)
Theorem executeCode_result stamp serverConfig kernelId code es rs :
  promise (run stamp serverConfig kernelId true (executeCode_blocks code) es) = Resolved rs →
  ∃ r, rs !! 0 = Some r ∧ rs = [r] ∧ result_id r = "single" ∧
       (result_hasError r = None ∨ result_hasError r = Some true) ∧
       result_hasError r ≠ Some false.
Proof.
  intros Hrs.
  destruct (single_cell_result stamp serverConfig kernelId true _ es rs Hrs)
    as (r & -> & Hid & Herr).
  exists r. split_and!; try done.
  destruct Herr as [->| ->]; done.
Qed.

(** ** URLs *)

Lemma replace_unfold s pat by_ :
  replace s pat by_
  = if String.prefix pat s
    then by_ +:+ String.substring (String.length pat) (String.length s - String.length pat) s
    else match s with
         | EmptyString => EmptyString
         | String c rest => String c (replace rest pat by_)
         end.
Proof. by destruct s. Qed.

Lemma prefix_split p s : String.prefix p s = true → ∃ rest, s = p +:+ rest.
Proof.
  revert s. induction p as [|c p IH]; intros s H; [by exists s|].
  destruct s as [|c' s]; [done|]. simpl in H.
  destruct (Ascii.ascii_dec c c') as [<-|]; [|done].
  destruct (IH s H) as [rest ->]. by exists rest.
Qed.

Lemma prefix_empty s : String.prefix "" s = true.
Proof. by destruct s. Qed.

Lemma substring_all s : String.substring 0 (String.length s) s = s.
Proof. induction s as [|c s IH]; [done|]. simpl. by rewrite IH. Qed.

Lemma replace_absent s pat by_ :
  String.index 0 pat s = None → replace s pat by_ = s.
Proof.
  induction s as [|c s IH]; intros H.
  - rewrite replace_unfold. by destruct pat.
  - rewrite replace_unfold.
    change (String.index 0 pat (String c s))
      with (if String.prefix pat (String c s) then Some 0
            else match String.index 0 pat s with
                 | Some n => Some (S n)
                 | None => None
                 end) in H.
    destruct (String.prefix pat (String c s)); [done|].
    destruct (String.index 0 pat s); [done|]. by rewrite IH.
Qed.

(** X16. The WebSocket URL has the [wss] scheme when the configured host
    starts with https://, and the [ws] scheme when it starts with http://
    or does not start with http at all (it is then taken as a bare host). *)
Theorem getWebSocketUrl_scheme serverConfig kernelId :
  (startsWith (ip serverConfig) "https://" = true →
   startsWith (getWebSocketUrl serverConfig kernelId) "wss://" = true)
  ∧ (startsWith (ip serverConfig) "http://" = true ∨
     startsWith (ip serverConfig) "http" = false →
     startsWith (getWebSocketUrl serverConfig kernelId) "ws://" = true).
Proof.
  unfold getWebSocketUrl, getBaseUrl, startsWith. split.
  - intros [rest Hip]%prefix_split. rewrite Hip. simpl.
    rewrite prefix_empty. simpl.
    destruct (truthy_opt (token serverConfig)); simpl; apply prefix_empty.
  - intros [[rest Hip]%prefix_split|Hno].
    + rewrite Hip. simpl. rewrite prefix_empty. simpl.
      destruct (truthy_opt (token serverConfig)); simpl; apply prefix_empty.
    + rewrite Hno. simpl. rewrite prefix_empty. simpl.
      destruct (truthy_opt (token serverConfig)); simpl; apply prefix_empty.
Qed.

(** X17. For a bare host (one that does not start with http, and with no
    https:// inside host and port) the WebSocket URL of a kernel is the
    HTTP URL of that kernel's channels endpoint with http:// replaced by
    ws://: same host, port, path and token. *)
Theorem getWebSocketUrl_of_http_url serverConfig kernelId :
  startsWith (ip serverConfig) "http" = false →
  includes (ip serverConfig +:+ ":" +:+ port serverConfig) "https://" = false →
  ∃ rest,
    getUrlWithToken serverConfig ("/api/kernels/" +:+ kernelId +:+ "/channels")
    = "http://" +:+ rest ∧
    getWebSocketUrl serverConfig kernelId = "ws://" +:+ rest.
Proof.
  intros Hno Hinc. unfold getUrlWithToken, getWebSocketUrl, getBaseUrl. rewrite Hno.
  assert (String.index 0 "https://" (ip serverConfig +:+ ":" +:+ port serverConfig) = None)
    as Hidx by (unfold includes in Hinc; by destruct (String.index _ _ _)).
  assert (replace (replace ("http://" +:+ ip serverConfig +:+ ":" +:+ port serverConfig)
                     "http://" "ws://") "https://" "wss://"
          = "ws://" +:+ ip serverConfig +:+ ":" +:+ port serverConfig) as ->.
  { simpl. change ("" +:+ ?x) with x. rewrite prefix_empty. simpl.
    change ("" +:+ ?x) with x. rewrite Nat.sub_0_r, substring_all.
    by rewrite (replace_absent _ _ _ Hidx). }
  destruct (truthy_opt (token serverConfig)).
  - exists (((ip serverConfig +:+ ":" +:+ port serverConfig)
             +:+ "/api/kernels/" +:+ kernelId +:+ "/channels")
            +:+ "?token=" +:+ interpolate (token serverConfig)).
    split; reflexivity.
  - exists ((ip serverConfig +:+ ":" +:+ port serverConfig)
            +:+ "/api/kernels/" +:+ kernelId +:+ "/channels").
    split; reflexivity.
Qed.

(** ** [createKernel] *)

(** X18. [createKernel] fulfils exactly when the response is 2xx and its
    body is JSON other than [null]; the value is the [id] property of the
    parsed body, undefined when there is none (the id is not checked).
    Whenever it rejects, it rejects with an instance of [Error]: a value
    that is not one, thrown by [fetch], is wrapped. [deleteKernel] and
    [listKernels] pass a rejection of [fetch] on as it is. *)
Theorem createKernel_outcomes fetch serverConfig kernelName kernelId :
  let request := {| req_url := getUrlWithToken serverConfig "/api/kernels";
                    req_method := "POST"; req_name := Some kernelName |} in
  (∀ v, createKernel fetch serverConfig kernelName = Normal v ↔
        ∃ r body, fetch request = Normal r ∧ resp_ok r = true ∧
                  resp_json r = Some body ∧ get_id body = Normal v)
  ∧ (∀ e, createKernel fetch serverConfig kernelName = Throw e →
          instanceof_Error e = true)
  ∧ (∀ repr, fetch request = Throw (NonError repr) →
             createKernel fetch serverConfig kernelName
             = Throw (Error ("Failed to create kernel: " +:+ repr)))
  ∧ (∀ e, (∀ req, fetch req = Throw e) →
          deleteKernel fetch serverConfig kernelId = Throw e ∧
          listKernels fetch serverConfig = Throw e).
Proof.
  intros request. unfold createKernel, deleteKernel, listKernels. fold request.
  cbn [mbind completion_bind mret completion_ret].
  split_and!.
  - intros v. split.
    + destruct (fetch request) as [r|e] eqn:Hf; cbn.
      * destruct (resp_ok r) eqn:Hok; cbn; [|done].
        unfold parse_body. destruct (resp_json r) as [body|] eqn:Hj; cbn; [|done].
        destruct (get_id body) eqn:Hid; cbn; [|done].
        intros [= <-]. by exists r, body.
      * by destruct (instanceof_Error e).
    + intros (r & body & -> & Hok & Hj & Hid). cbn. rewrite Hok. cbn.
      unfold parse_body. rewrite Hj. cbn. by rewrite Hid.
  - intros e. destruct (fetch request) as [r|e'] eqn:Hf; cbn.
    + destruct (resp_ok r); cbn; [|by intros [= <-]].
      unfold parse_body. destruct (resp_json r) as [body|]; cbn; [|by intros [= <-]].
      destruct (get_id body); cbn; [done|by intros [= <-]].
    + destruct (instanceof_Error e') eqn:He; intros [= <-]; done.
  - intros repr ->. done.
  - intros e He. by rewrite !He.
Qed.

(** * The further properties at sample inputs *)

Lemma promise_settles_once_witness :
  promise (run sample_stamp sample_server "k1" true [cell_a] []) = Pending ∧
  promise (run sample_stamp sample_server "k1" true [cell_a]
             ([] ++ ErrorEvent :: [MessageEvent (Json (idle_status "msg-0"))]))
  = Rejected "WebSocket error".
Proof.
  assert (promise (run sample_stamp sample_server "k1" true [cell_a] []) = Pending)
    as H by reflexivity.
  split; [exact H|].
  exact (proj2 (promise_settles_once sample_stamp sample_server "k1" true [cell_a] []
                  [MessageEvent (Json (idle_status "msg-0"))]) H).
Defined.

Lemma frozen_after_completion_witness :
  currentBlockIndex (run sample_stamp sample_server "k1" true [cell_a]
                       [MessageEvent (Json (idle_status "msg-0"))])
  = length [cell_a] ∧
  [cell_a] ≠ [] ∧
  ws (run sample_stamp sample_server "k1" true [cell_a]
        ([MessageEvent (Json (idle_status "msg-0"))]
         ++ [MessageEvent (Json (inbound "stream" "msg-0" (stream_content "late")));
             CloseEvent; ErrorEvent]))
  = ws (run sample_stamp sample_server "k1" true [cell_a]
          [MessageEvent (Json (idle_status "msg-0"))]).
Proof.
  assert (currentBlockIndex (run sample_stamp sample_server "k1" true [cell_a]
                               [MessageEvent (Json (idle_status "msg-0"))])
          = length [cell_a]) as H1 by reflexivity.
  assert ([cell_a] ≠ []) as H2 by done.
  split; [exact H1|]. split; [exact H2|].
  destruct (frozen_after_completion sample_stamp sample_server "k1" true [cell_a]
              [MessageEvent (Json (idle_status "msg-0"))]
              [MessageEvent (Json (inbound "stream" "msg-0" (stream_content "late")));
               CloseEvent; ErrorEvent] H1 H2)
    as (_ & _ & _ & _ & _ & Hws & _).
  exact Hws.
Defined.

Lemma streams_accumulate_witness :
  truthy "msg-0" = true ∧
  messageStatus (run sample_stamp sample_server "k1" true [cell_a] []) !! "msg-0"
  = Some {| done := false; output := "" |} ∧
  codeBlocks (run sample_stamp sample_server "k1" true [cell_a] [])
  !! currentBlockIndex (run sample_stamp sample_server "k1" true [cell_a] [])
  = Some cell_a ∧
  results
    (deliver sample_stamp true
       (deliver_all sample_stamp true
          (run sample_stamp sample_server "k1" true [cell_a] [])
          (stream_events "msg-0" ["a"; ""; "b"]))
       (MessageEvent (Json (idle_status "msg-0")))) !! "cell-a"
  = Some "ab".
Proof.
  assert (truthy "msg-0" = true) as H1 by reflexivity.
  assert (messageStatus (run sample_stamp sample_server "k1" true [cell_a] []) !! "msg-0"
          = Some {| done := false; output := "" |}) as H2 by (vm_compute; reflexivity).
  assert (codeBlocks (run sample_stamp sample_server "k1" true [cell_a] [])
          !! currentBlockIndex (run sample_stamp sample_server "k1" true [cell_a] [])
          = Some cell_a) as H3 by reflexivity.
  split; [exact H1|]. split; [exact H2|]. split; [exact H3|].
  destruct (streams_accumulate sample_stamp true ["a"; ""; "b"] _ _ _ _ H1 H2 H3)
    as (_ & _ & _ & _ & _ & _ & _ & _ & Hidle).
  destruct (Hidle eq_refl) as (Hres & _). exact Hres.
Defined.

Lemma late_output_attribution_witness :
  matched (run sample_stamp sample_server "k1" true [cell_a; cell_b]
             [MessageEvent (Json (idle_status "msg-0"))])
    (inbound "stream" "msg-0" (stream_content "late")) "msg-0"
    {| done := true; output := "" |} ∧
  "msg-0" ≠ msgId sample_stamp
              (currentBlockIndex (run sample_stamp sample_server "k1" true [cell_a; cell_b]
                                    [MessageEvent (Json (idle_status "msg-0"))])) ∧
  notified (deliver sample_stamp true
              (run sample_stamp sample_server "k1" true [cell_a; cell_b]
                 [MessageEvent (Json (idle_status "msg-0"))])
              (MessageEvent (Json (inbound "stream" "msg-0" (stream_content "late")))))
  = [("cell-b", "late")] ∧
  results (deliver sample_stamp true
             (run sample_stamp sample_server "k1" true [cell_a; cell_b]
                [MessageEvent (Json (idle_status "msg-0"))])
             (MessageEvent (Json (inbound "stream" "msg-0" (stream_content "late")))))
  = results (run sample_stamp sample_server "k1" true [cell_a; cell_b]
               [MessageEvent (Json (idle_status "msg-0"))]).
Proof.
  assert (matched (run sample_stamp sample_server "k1" true [cell_a; cell_b]
                     [MessageEvent (Json (idle_status "msg-0"))])
            (inbound "stream" "msg-0" (stream_content "late")) "msg-0"
            {| done := true; output := "" |}) as H1
    by (split_and!; vm_compute; reflexivity).
  assert ("msg-0" ≠ msgId sample_stamp
                      (currentBlockIndex
                         (run sample_stamp sample_server "k1" true [cell_a; cell_b]
                            [MessageEvent (Json (idle_status "msg-0"))]))) as H2
    by (vm_compute; discriminate).
  split; [exact H1|]. split; [exact H2|].
  destruct (late_output_attribution sample_stamp sample_server "k1" true [cell_a; cell_b]
              [MessageEvent (Json (idle_status "msg-0"))]
              (inbound "stream" "msg-0" (stream_content "late")) "msg-0"
              {| done := true; output := "" |} "late" cell_b
              H1 H2 (or_introl eq_refl) eq_refl eq_refl)
    as (_ & _ & _ & Hres & _ & _ & Hnot).
  split; [exact Hnot|exact Hres].
Defined.



Lemma status_message_idempotent_witness :
  kind_of (header_msg_type (idle_status "msg-0")) = KStatus ∧
  deliver sample_stamp true
    (deliver sample_stamp true (run sample_stamp sample_server "k1" true [cell_a; cell_b] [])
       (MessageEvent (Json (idle_status "msg-0"))))
    (MessageEvent (Json (idle_status "msg-0")))
  = deliver sample_stamp true (run sample_stamp sample_server "k1" true [cell_a; cell_b] [])
      (MessageEvent (Json (idle_status "msg-0"))).
Proof.
  assert (kind_of (header_msg_type (idle_status "msg-0")) = KStatus) as H by reflexivity.
  split; [exact H|].
  exact (status_message_idempotent sample_stamp true _ _ H).
Defined.


Lemma onOutput_calls_witness :
  false = false ∧
  notified (run sample_stamp sample_server "k1" false [cell_a]
              [MessageEvent (Json (inbound "stream" "msg-0" (stream_content "x")))])
  = [].
Proof.
  split; [reflexivity|].
  exact (proj1 (onOutput_calls sample_stamp sample_server "k1" false [cell_a]
                  [MessageEvent (Json (inbound "stream" "msg-0" (stream_content "x")))]
                  CloseEvent) eq_refl).
Defined.

Lemma resolved_results_shape_witness :
  promise (run sample_stamp sample_server "k1" true [cell_a; cell_b]
             (idle_replies sample_stamp 2))
  = Resolved [{| result_id := "cell-a"; result_hasError := Some false;
                 result_output := "" |};
              {| result_id := "cell-b"; result_hasError := Some true;
                 result_output := "" |}] ∧
  result_id <$> [{| result_id := "cell-a"; result_hasError := Some false;
                    result_output := "" |};
                 {| result_id := "cell-b"; result_hasError := Some true;
                    result_output := "" |}]
  = block_id <$> [cell_a; cell_b].
Proof.
  assert (promise (run sample_stamp sample_server "k1" true [cell_a; cell_b]
                     (idle_replies sample_stamp 2))
          = Resolved [{| result_id := "cell-a"; result_hasError := Some false;
                         result_output := "" |};
                      {| result_id := "cell-b"; result_hasError := Some true;
                         result_output := "" |}]) as H by (vm_compute; reflexivity).
  split; [exact H|].
  exact (proj1 (resolved_results_shape sample_stamp sample_server "k1" true
                  [cell_a; cell_b] (idle_replies sample_stamp 2) _ H)).
Defined.

Lemma executeCode_result_witness :
  promise (run sample_stamp sample_server "k1" true (executeCode_blocks "1+1")
             [MessageEvent (Json (idle_status "msg-0"))])
  = Resolved [{| result_id := "single"; result_hasError := None; result_output := "" |}] ∧
  ∃ r, [{| result_id := "single"; result_hasError := None; result_output := "" |}] !! 0
       = Some r ∧ result_hasError r ≠ Some false.
Proof.
  assert (promise (run sample_stamp sample_server "k1" true (executeCode_blocks "1+1")
                     [MessageEvent (Json (idle_status "msg-0"))])
          = Resolved [{| result_id := "single"; result_hasError := None;
                         result_output := "" |}]) as H by (vm_compute; reflexivity).
  split; [exact H|].
  destruct (executeCode_result sample_stamp sample_server "k1" "1+1"
              [MessageEvent (Json (idle_status "msg-0"))] _ H)
    as (r & Hr & _ & _ & _ & Hnf).
  by exists r.
Defined.

Lemma getWebSocketUrl_scheme_witness :
  startsWith (ip secure_server) "https://" = true ∧
  startsWith (getWebSocketUrl secure_server "k1") "wss://" = true.
Proof.
  assert (startsWith (ip secure_server) "https://" = true) as H by reflexivity.
  split; [exact H|].
  exact (proj1 (getWebSocketUrl_scheme secure_server "k1") H).
Defined.

Lemma getWebSocketUrl_of_http_url_witness :
  startsWith (ip sample_server) "http" = false ∧
  includes (ip sample_server +:+ ":" +:+ port sample_server) "https://" = false ∧
  ∃ rest,
    getUrlWithToken sample_server ("/api/kernels/" +:+ "k1" +:+ "/channels")
    = "http://" +:+ rest ∧
    getWebSocketUrl sample_server "k1" = "ws://" +:+ rest.
Proof.
  assert (startsWith (ip sample_server) "http" = false) as H1 by reflexivity.
  assert (includes (ip sample_server +:+ ":" +:+ port sample_server) "https://" = false)
    as H2 by reflexivity.
  split; [exact H1|]. split; [exact H2|].
  exact (getWebSocketUrl_of_http_url sample_server "k1" H1 H2).
Defined.

Lemma createKernel_outcomes_witness :
  offline_fetch {| req_url := getUrlWithToken sample_server "/api/kernels";
                   req_method := "POST"; req_name := Some "python3" |}
  = Throw (NonError "offline") ∧
  createKernel offline_fetch sample_server "python3"
  = Throw (Error "Failed to create kernel: offline").
Proof.
  assert (offline_fetch {| req_url := getUrlWithToken sample_server "/api/kernels";
                           req_method := "POST"; req_name := Some "python3" |}
          = Throw (NonError "offline")) as H by reflexivity.
  split; [exact H|].
  exact (proj1 (proj2 (proj2 (createKernel_outcomes offline_fetch
                                sample_server "python3" "k1"))) "offline" H).
Defined.

Lemma index_advances_on_idle_witness :
  matched (run sample_stamp sample_server "k1" true [cell_a; cell_b] [])
    (idle_status "msg-0") "msg-0" {| done := false; output := "" |} ∧
  currentBlockIndex
    (deliver sample_stamp true (run sample_stamp sample_server "k1" true [cell_a; cell_b] [])
       (MessageEvent (Json (idle_status "msg-0"))))
  = S (currentBlockIndex (run sample_stamp sample_server "k1" true [cell_a; cell_b] [])).
Proof.
  assert (matched (run sample_stamp sample_server "k1" true [cell_a; cell_b] [])
            (idle_status "msg-0") "msg-0" {| done := false; output := "" |}) as H
    by (split_and!; vm_compute; reflexivity).
  split; [exact H|].
  apply (proj2 (proj2 (index_advances_on_idle sample_stamp true
                         (run sample_stamp sample_server "k1" true [cell_a; cell_b] [])
                         (MessageEvent (Json (idle_status "msg-0")))))).
  exists (idle_status "msg-0"), "msg-0", {| done := false; output := "" |}.
  split; [reflexivity|]. split; [exact H|]. split.
  - split; [reflexivity|]. split; [|reflexivity].
    exists idle_content. split; reflexivity.
  - vm_compute. lia.
Defined.
